(* ===== verification/_CoqProject ===== *)
-Q . S2P
Prelude.v
Frame.v
Registry.v
Ifnet.v
Instance.v
Pipeline.v
Ioctl.v
System.v
Conc.v
ConcLock.v
ConcSeq.v
