(* ===== verification/Prelude.v ===== *)
(** * A verification development of macos-vcan, the virtual CAN network
    interface kernel extension for macOS.

    The program (src/vcan.h, src/vcan_simple.cpp) is an IOKit service
    class [VirtualCANInterface].  Each instance owns one network
    interface [vcanN] registered with the BSD network stack through the
    [ifnet_*] KPI.  Its parts and how they interact:

    - vcan.h: the SocketCAN frame layouts ([can_frame], [canfd_frame],
      [canxl_frame]), the identifier flag bits and the size constants
      ([CAN_MTU], [CANFD_MTU], [CANXL_MIN_MTU], [CANXL_MAX_MTU]).
    - The slot table: the static members [interfaces[16]] and
      [interface_count], guarded by the static [interface_lock];
      [create_interface] claims the lowest free slot, the failure paths
      of [create_interface] and [destroy_interface] release it.
    - The instance: [init] reads the [echo] property, [start]/[stop]/
      [free] drive the IOKit lifecycle, [create_interface] allocates,
      configures and attaches the [ifnet], [destroy_interface] detaches
      it and releases the slot.
    - The transmit path [vcan_output]/[output_handler] (statistics, the
      MBUF_LOOP test, the echo duplicate) and the receive path
      [input_handler] (statistics, rcvif, [ifnet_input]).
    - The control path [vcan_ioctl]/[ioctl_handler]: SIOCGIFMTU and
      SIOCSIFMTU with the CAN / CAN FD / CAN XL MTU check and the IFF_UP
      guard.

    Files (in dependency order):
    - [Prelude] (this file): machine-width arithmetic ([u32_wrap],
      [u64_wrap] and the notations [+u32], [-u32], [+u64] of
      [vcan_scope]), the errno values the driver returns, the count of
      used entries of an array of pointers ([count_used]) with its
      lemmas, the hint databases [vcan]/[vcan_rw] and the tactics.
    - [Frame]: vcan.h.  Modules [CanFrame], [CanFdFrame], [CanXlFrame]:
      each struct as a record and its in-memory byte image (little
      endian, as on every macOS target, written with coqutil's
      [le_split]).  No code of src/ reads or writes a frame (the driver
      passes mbufs through unread), so the theorems check the header
      against itself: the images have the sizes [CAN_MTU] and
      [CANFD_MTU], and [canxl_mtu_range_vs_frame_size] shows the CAN XL
      MTU range does not match the sizes of the struct.
    - [Registry]: Module [Registry], the slot table ([interfaces],
      [interface_count], lines 41-42, 49-50) as a record of a list of 16
      optional owners and a UInt32; [find_slot_loop] is the scan of lines
      122-127 with one unit of fuel per iteration, [acquire_slot] the
      claim of lines 129-137, [release_slot] the release of lines
      157-158/176-177/193-194.  The fuel is [VCAN_MAX_INTERFACES], the
      loop bound; [find_slot_fuel] proves more fuel changes nothing.
      Theorems: the scan equals the declarative lowest free slot
      ([lowest_free]); the table invariant [registry_wf] (16 entries,
      [interface_count] = used entries, one slot per owner) is kept by
      claim and release; the claim fails exactly on a full table;
      sixteen claims take slots 0..15; a released slot is reused;
      claim and release refine [spec_acquire]/[spec_release] on the map
      [slot -> owner] ([slot_map]).
    - [Ifnet]: the ifnet and mbuf KPI the driver calls.  It is not code
      of this repository: the class [IfnetKPI] lists the operations, the
      class [IfnetLaws] states what the driver relies on as laws through
      an observation [ifnet_view_of] (MTU, flags, counters, attachment,
      delivered packets); [ViewIfnet] is a concrete instance, which shows
      the laws consistent and runs the witnesses.  Counters are 64-bit
      ([stats_add] wraps at 2^64).
    - [Instance]: the members of one instance ([VirtualCANInterface]),
      the statics ([statics]: table and whether [interface_lock] was
      allocated), and [init], [configure_ifnet], [create_interface],
      [destroy_interface], [start], [stop], [free] as functions of the
      statics and the instance.  The outcomes of [super::init],
      [super::start], [IOLockAlloc], [ifnet_allocate] and [ifnet_attach]
      are inputs, so every error path is a value.  Theorems: success and
      failure of [create_interface] on each path, no trace of a failed
      creation, release by [destroy_interface], [free] after [stop].
    - [Pipeline]: [stat_increment], [should_loop], [input_handler],
      [output_handler], [vcan_output]; the outcome of [mbuf_dup] is an
      input.  Theorems: each branch against [expected_output_view] and
      [expected_input_view], NULL packets, the result code.
    - [Ioctl]: [mtu_invalid], [ioctl_handler], [vcan_ioctl] on the
      [ifr_mtu] field of [struct ifreq].  Theorems: each branch, the
      legal-MTU test, the legal MTU kept, set then get.
    - [System]: the whole driver as a step relation [step] over a
      [world] (statics and all live instances by object): [init],
      [start], [stop], [free], a transmission, an ioctl, an
      administrative up/down.  [reachable_world_wf] proves by induction
      on [rtc step] that every reachable world keeps the table well
      formed and consistent with the instances (no leaked slot, no
      shared slot, distinct unit numbers, legal MTUs, 64-bit counters);
      the table read as a map refines the set of live interfaces, and a
      world with no live interface has the initial table.

    - [Conc]: Module [Conc], concurrent lifecycles.  Each instance is a
      thread with a program counter [pc] through [start] (lazy
      [IOLockAlloc]), [create_interface] (lock, scan, claim, unlock,
      [ifnet_allocate], [ifnet_attach], the rollbacks under the lock) and
      [stop]/[destroy_interface] (lock, release, unlock), one step at each
      operation on the statics ([thread_step]), interleaved by [cstep];
      [interface_lock] is the lock object the static points to when the
      lock operation runs; [IOLockLock(NULL)] and [IOLockUnlock] of a
      mutex the thread does not hold panic the kernel (the flag
      [c_fault]), as xnu's mutex checks do.  Theorems: every interleaving
      of [n] lifecycles ends within [10 * n] steps; with the lock still
      NULL, an interleaving in which two starts allocate two locks, are
      inside the section together and both claim slot 0, leaving
      [interface_count] = 2 for one used slot before the kernel panics.
    - [ConcLock]: Module [ConcLock], the same model when the lock exists
      before the instances start: the invariant [locked_inv] is kept by
      every step, hence mutual exclusion, a well-formed table, each running
      instance owning the slot of its unit (distinct units), finished
      instances owning none, no panic and no deadlock; an interleaving
      that runs to its end leaves the initial table.
    - [ConcSeq]: Module [ConcSeq], a consistency check between the two
      models of [create_interface] and [destroy_interface]: one instance
      running alone through the steps of [Conc] ends with the table, the
      result and the slot the functions of [Instance] give, and the lock
      released.  It relates two models of the same lines, so it is not
      stated as a property of the program.
    - [System] also holds the kext entry points [vcan_start], [vcan_stop],
      [_start], [_stop] (lines 330-362), which only log and return
      [KERN_SUCCESS].

    Each theorem stated as a property of the program has a doc comment
    with its claim number; each one with hypotheses has a witness lemma
    that applies it to a concrete state.

    Not modelled: [IOLog] (output only), [mbuf_freem] (the packet is not
    looked at again), the IOKit superclass ([super::init], [super::start]
    are inputs of [Instance]; [Conc] takes them to succeed), the bodies of
    the ifnet KPI (modelled by their laws in [Ifnet]), and the effect of
    the ifnet calls on the interface inside [Conc] (which follows the
    table and the lock only; [Instance] and [System] follow the
    interface). *)

From stdpp Require Export base list gmap relations.
From Stdlib Require Export ZArith Lia.

Declare Scope vcan_scope.
Delimit Scope vcan_scope with vcan.
Open Scope Z_scope.

(** ** Machine-width integers *)

(** Reduction of an integer to an unsigned [w]-bit value: the C
    conversion to [uintN_t]. *)
Definition wrap (w : Z) (z : Z) : Z := z mod 2 ^ w.

(** [u_int32_t] and [u_int64_t]. *)
Definition u32_wrap : Z -> Z := wrap 32.
Definition u64_wrap : Z -> Z := wrap 64.

(** [z] fits in an unsigned [w]-bit integer. *)
Definition in_uint (w z : Z) : Prop := 0 <= z < 2 ^ w.

Abbreviation fits_u32 := (in_uint 32).
Abbreviation fits_u64 := (in_uint 64).

(** Counter arithmetic of the C code: [a +u32 b] is an addition in
    [u_int32_t], [a +u64 b] one in [u_int64_t]. *)
Notation "a +u32 b" := (u32_wrap (a + b)) (at level 50, left associativity) : vcan_scope.
Notation "a +u64 b" := (u64_wrap (a + b)) (at level 50, left associativity) : vcan_scope.
Notation "a -u32 b" := (u32_wrap (a - b)) (at level 50, left associativity) : vcan_scope.
Open Scope vcan_scope.

#[export] Instance in_uint_dec w z : Decision (in_uint w z).
Proof. unfold in_uint. apply _. Defined.

(** ** errno values of <sys/errno.h> on macOS *)

Definition ENOMEM : Z := 12.
Definition EBUSY : Z := 16.
Definition EINVAL : Z := 22.
Definition EOPNOTSUPP : Z := 102.

(** ** Arrays of optional owners *)

(** The number of occupied entries of a C array of pointers. *)
Definition count_used {A} (l : list (option A)) : nat :=
  length (filter (fun o : option A => is_Some o) l).

Create HintDb vcan.
Create Rewrite HintDb vcan_rw.

(** ** Lemmas on wrap-around *)

Lemma wrap_range w z : 0 <= w -> in_uint w (wrap w z).
Proof.
  intros Hw. unfold in_uint, wrap. apply Z.mod_pos_bound.
  apply Z.pow_pos_nonneg; lia.
Qed.

Lemma wrap_small w z : in_uint w z -> wrap w z = z.
Proof. unfold in_uint, wrap. intros. by apply Z.mod_small. Qed.

Lemma wrap_idem w z : 0 <= w -> wrap w (wrap w z) = wrap w z.
Proof. intros. apply wrap_small, wrap_range; lia. Qed.

Lemma u32_wrap_small z : fits_u32 z -> u32_wrap z = z.
Proof. apply wrap_small. Qed.

Lemma u64_wrap_small z : fits_u64 z -> u64_wrap z = z.
Proof. apply wrap_small. Qed.

Lemma u32_wrap_range z : fits_u32 (u32_wrap z).
Proof. apply wrap_range; lia. Qed.

Lemma u64_wrap_range z : fits_u64 (u64_wrap z).
Proof. apply wrap_range; lia. Qed.

(** Adding to a [w]-bit counter wraps exactly when the sum leaves the
    range. *)
Lemma wrap_add_no_overflow w a b :
  in_uint w (a + b) -> wrap w (a + b) = a + b.
Proof. apply wrap_small. Qed.

Lemma wrap_add_overflow w a b :
  in_uint w a -> in_uint w b -> 2 ^ w <= a + b -> wrap w (a + b) = a + b - 2 ^ w.
Proof.
  unfold in_uint, wrap. intros Ha Hb Hab.
  rewrite <- (Z.mod_add _ (-1)) by lia.
  rewrite Z.mod_small; lia.
Qed.

(** Adding to a wrapped counter is adding, then wrapping once. *)
Lemma wrap_add_wrap_l w a b : wrap w (wrap w a + b) = wrap w (a + b).
Proof. unfold wrap. apply Zplus_mod_idemp_l. Qed.

#[export] Hint Resolve u32_wrap_range u64_wrap_range : vcan.
#[export] Hint Rewrite u32_wrap_small u64_wrap_small using (unfold in_uint; lia) : vcan_rw.

(** ** Lemmas on [count_used] *)

Section CountUsed.
Context {A : Type}.
Implicit Types (l : list (option A)) (x : A).

Lemma count_used_app l1 l2 : count_used (l1 ++ l2) = (count_used l1 + count_used l2)%nat.
Proof. unfold count_used. by rewrite filter_app, length_app. Qed.

Lemma count_used_nil : count_used (@nil (option A)) = 0%nat.
Proof. done. Qed.

Lemma count_used_cons_None l : count_used (None :: l) = count_used l.
Proof. unfold count_used. rewrite filter_cons_False; [done|]. by intros []. Qed.

Lemma count_used_cons_Some x l : count_used (Some x :: l) = S (count_used l).
Proof. unfold count_used. rewrite filter_cons_True; [done|]. by eexists. Qed.

Lemma count_used_le l : (count_used l <= length l)%nat.
Proof. unfold count_used. apply length_filter. Qed.

Lemma count_used_replicate_None n : count_used (replicate n (@None A)) = 0%nat.
Proof. induction n as [|n IH]; [done|]. by rewrite replicate_S, count_used_cons_None. Qed.

(** The count around one entry of the array. *)
Lemma count_used_split l i o :
  l !! i = Some o ->
  count_used l = (count_used (take i l) + count_used [o] + count_used (drop (S i) l))%nat.
Proof.
  intros Hi. rewrite <- (take_drop_middle l i o Hi) at 1.
  rewrite count_used_app. change (o :: drop (S i) l) with ([o] ++ drop (S i) l).
  rewrite count_used_app. lia.
Qed.

(** Filling a free entry adds one, clearing a used entry removes one. *)
Lemma count_used_insert_fill l i x :
  l !! i = Some None -> count_used (<[i:=Some x]> l) = S (count_used l).
Proof.
  intros Hi. pose proof (lookup_lt_Some _ _ _ Hi) as Hlt.
  rewrite (count_used_split l i None) by done.
  rewrite (insert_take_drop l i) by done.
  rewrite count_used_app, !count_used_cons_Some, count_used_cons_None, count_used_nil. lia.
Qed.

Lemma count_used_insert_clear l i x :
  l !! i = Some (Some x) -> S (count_used (<[i:=None]> l)) = count_used l.
Proof.
  intros Hi. pose proof (lookup_lt_Some _ _ _ Hi) as Hlt.
  rewrite (count_used_split l i (Some x)) by done.
  rewrite (insert_take_drop l i) by done.
  rewrite count_used_app, !count_used_cons_None, count_used_cons_Some, count_used_nil. lia.
Qed.

(** All entries used means the count is the length. *)
Lemma count_used_full l :
  (forall i o, l !! i = Some o -> is_Some o) -> count_used l = length l.
Proof.
  induction l as [|[x|] l IH]; intros Hall; [done| |].
  - rewrite count_used_cons_Some. simpl. f_equal.
    apply IH. intros i o Hi. exact (Hall (S i) o Hi).
  - by destruct (Hall 0%nat None eq_refl).
Qed.
End CountUsed.

#[export] Hint Rewrite @count_used_nil @count_used_cons_None @count_used_cons_Some : vcan_rw.

(** ** Invariants of transition systems *)

Section Invariant.
Context {A : Type} (R : relation A) (P : A -> Prop).
Hypothesis HP : forall x y, P x -> R x y -> P y.

(** A property every step preserves holds all along a run. *)
Lemma rtc_preserved x y : rtc R x y -> P x -> P y.
Proof. induction 1; eauto. Qed.

End Invariant.

(** ** Tactics *)

(** Turn the boolean comparisons of the code into propositions. *)
Ltac bool_to_prop :=
  repeat match goal with
  | H : (_ =? _)%Z = true |- _ => apply Z.eqb_eq in H
  | H : (_ =? _)%Z = false |- _ => apply Z.eqb_neq in H
  | H : (_ <? _)%Z = true |- _ => apply Z.ltb_lt in H
  | H : (_ <? _)%Z = false |- _ => apply Z.ltb_ge in H
  | H : (_ <=? _)%Z = true |- _ => apply Z.leb_le in H
  | H : (_ <=? _)%Z = false |- _ => apply Z.leb_gt in H
  | H : (_ =? _)%nat = true |- _ => apply Nat.eqb_eq in H
  | H : (_ =? _)%nat = false |- _ => apply Nat.eqb_neq in H
  | H : (_ <? _)%nat = true |- _ => apply Nat.ltb_lt in H
  | H : (_ <? _)%nat = false |- _ => apply Nat.ltb_ge in H
  | H : (_ && _)%bool = true |- _ => apply andb_prop in H as [? ?]
  | H : (_ || _)%bool = false |- _ => apply orb_false_elim in H as [? ?]
  | H : negb _ = true |- _ => apply negb_true_iff in H
  | H : negb _ = false |- _ => apply negb_false_iff in H
  end.

(** Case on every [if] and [match] of the goal, then clean up. *)
Ltac split_code :=
  repeat (case_match; simplify_eq/=; bool_to_prop); try done.
