(* ===== verification/Frame.v ===== *)
(** * vcan.h: CAN frame layouts and size constants

    The three SocketCAN frame structs of src/vcan.h as records, the
    identifier flag bits, the MTU and length constants, and the in-memory
    byte image of each struct (little endian, the byte order of every
    macOS target), field after field at the offsets of the C layout.  No
    code of src/ reads or writes frames (the driver passes mbufs through
    unread); what is checked here is the header itself: the images of
    struct can_frame and struct canfd_frame have the sizes [CAN_MTU] and
    [CANFD_MTU] claim, and the CAN XL MTU range does not match the
    struct canxl_frame it is meant for. *)

From S2P Require Import Prelude.
From coqutil Require Import Byte Word.LittleEndianList.

Abbreviation byte := Init.Byte.byte.

(** ** Constants (vcan.h lines 38-59) *)

Definition CAN_EFF_FLAG : Z := 0x80000000.
Definition CAN_RTR_FLAG : Z := 0x40000000.
Definition CAN_ERR_FLAG : Z := 0x20000000.

Definition CAN_MTU : Z := 16.
Definition CANFD_MTU : Z := 72.
Definition CANXL_MIN_MTU : Z := 80.
Definition CANXL_MAX_MTU : Z := 2048.

Definition CAN_MAX_DLC : Z := 8.
Definition CANFD_MAX_DLC : Z := 15.
Definition CANXL_MIN_DLEN : Z := 1.
Definition CANXL_MAX_DLEN : Z := 2048.

Definition PF_CAN : Z := 35.
Definition AF_CAN : Z := PF_CAN.
Definition CAN_RAW : Z := 1.

(** ** struct can_frame (vcan.h lines 8-15) *)

Module CanFrame.

Record can_frame := mk_can_frame {
  can_id : Z;            (* uint32_t: 32 bit CAN_ID + EFF/RTR/ERR flags *)
  can_dlc : Z;           (* uint8_t: payload length 0 .. 8 *)
  pad : Z;               (* uint8_t __pad *)
  res0 : Z;              (* uint8_t __res0 *)
  res1 : Z;              (* uint8_t __res1 *)
  data : list byte       (* uint8_t data[8], at offset 8 *)
}.

(** The fields fit their C types; [data] is the 8-byte array. *)
Definition can_frame_wf (f : can_frame) : Prop :=
  fits_u32 (can_id f) /\ in_uint 8 (can_dlc f) /\ in_uint 8 (pad f) /\
  in_uint 8 (res0 f) /\ in_uint 8 (res1 f) /\ length (data f) = 8%nat.

(** The header's contract on the length field. *)
Definition can_frame_valid (f : can_frame) : Prop :=
  can_frame_wf f /\ can_dlc f <= CAN_MAX_DLC.

(** The 16 bytes of the struct in memory. *)
Definition can_frame_bytes (f : can_frame) : list byte :=
  le_split 4 (can_id f) ++ le_split 1 (can_dlc f) ++ le_split 1 (pad f) ++
  le_split 1 (res0 f) ++ le_split 1 (res1 f) ++ data f.

(** C34. The little-endian image of a well-formed struct can_frame is
    CAN_MTU = 16 bytes long, as vcan.h says of sizeof(struct can_frame). *)
Lemma can_frame_bytes_length f :
  can_frame_wf f -> Z.of_nat (length (can_frame_bytes f)) = CAN_MTU.
Proof.
  intros (_&_&_&_&_&Hd). unfold can_frame_bytes.
  rewrite !length_app, !length_le_split, Hd. done.
Qed.

End CanFrame.

(** ** struct canfd_frame (vcan.h lines 18-25) *)

Module CanFdFrame.

Record canfd_frame := mk_canfd_frame {
  can_id : Z;            (* uint32_t *)
  len : Z;               (* uint8_t: payload length *)
  flags : Z;             (* uint8_t: CAN FD flags *)
  res0 : Z;              (* uint8_t __res0 *)
  res1 : Z;              (* uint8_t __res1 *)
  data : list byte       (* uint8_t data[64], at offset 8 *)
}.

Definition canfd_frame_wf (f : canfd_frame) : Prop :=
  fits_u32 (can_id f) /\ in_uint 8 (len f) /\ in_uint 8 (flags f) /\
  in_uint 8 (res0 f) /\ in_uint 8 (res1 f) /\ length (data f) = 64%nat.

Definition canfd_frame_bytes (f : canfd_frame) : list byte :=
  le_split 4 (can_id f) ++ le_split 1 (len f) ++ le_split 1 (flags f) ++
  le_split 1 (res0 f) ++ le_split 1 (res1 f) ++ data f.

(** C35. The little-endian image of a well-formed struct canfd_frame is
    CANFD_MTU = 72 bytes long, as vcan.h says of sizeof(struct canfd_frame). *)
Lemma canfd_frame_bytes_length f :
  canfd_frame_wf f -> Z.of_nat (length (canfd_frame_bytes f)) = CANFD_MTU.
Proof.
  intros (_&_&_&_&_&Hd). unfold canfd_frame_bytes.
  rewrite !length_app, !length_le_split, Hd. done.
Qed.

End CanFdFrame.

(** ** struct canxl_frame (vcan.h lines 28-35) *)

Module CanXlFrame.

Record canxl_frame := mk_canxl_frame {
  prio : Z;              (* uint32_t: 11 bit priority / 21 bit vcid *)
  flags : Z;             (* uint8_t *)
  sdt : Z;               (* uint8_t: SDU type *)
  len : Z;               (* uint16_t: payload length *)
  af : Z;                (* uint32_t: acceptance field *)
  data : list byte       (* uint8_t data[]: flexible array, offset 12 *)
}.

(** The fields fit their C types and [len] counts the payload, which
    lies in [CANXL_MIN_DLEN .. CANXL_MAX_DLEN] (the comment on [data]). *)
Definition canxl_frame_wf (f : canxl_frame) : Prop :=
  fits_u32 (prio f) /\ in_uint 8 (flags f) /\ in_uint 8 (sdt f) /\
  in_uint 16 (len f) /\ fits_u32 (af f) /\ Z.of_nat (length (data f)) = len f /\
  CANXL_MIN_DLEN <= len f <= CANXL_MAX_DLEN.

(** [sizeof(struct canxl_frame)] bytes of header, then the payload. *)
Definition canxl_frame_bytes (f : canxl_frame) : list byte :=
  le_split 4 (prio f) ++ le_split 1 (flags f) ++ le_split 1 (sdt f) ++
  le_split 2 (len f) ++ le_split 4 (af f) ++ data f.

(** The image of a CAN XL frame is its 12-byte header and its payload. *)
Lemma canxl_frame_bytes_length f :
  canxl_frame_wf f -> Z.of_nat (length (canxl_frame_bytes f)) = 12 + len f.
Proof.
  intros (_&_&_&_&_&Hd&_). unfold canxl_frame_bytes.
  rewrite !length_app, !length_le_split. lia.
Qed.

End CanXlFrame.

(** ** The CAN XL size constants against the struct *)

(** C36. The CAN XL MTU range [CANXL_MIN_MTU, CANXL_MAX_MTU] = [80, 2048] does
    not match the frames it is meant for: a frame with the smallest
    payload ([CANXL_MIN_DLEN]) occupies 13 bytes, not the 80 of the comment
    "sizeof(struct canxl_frame) with CANXL_MIN_DLEN"; a frame with the
    largest payload ([CANXL_MAX_DLEN]) occupies 2060 bytes, more than
    [CANXL_MAX_MTU]. *)
Lemma canxl_mtu_range_vs_frame_size f :
  CanXlFrame.canxl_frame_wf f ->
  (CanXlFrame.len f = CANXL_MIN_DLEN ->
     Z.of_nat (length (CanXlFrame.canxl_frame_bytes f)) < CANXL_MIN_MTU) /\
  (CanXlFrame.len f = CANXL_MAX_DLEN ->
     CANXL_MAX_MTU < Z.of_nat (length (CanXlFrame.canxl_frame_bytes f))).
Proof.
  intros Hwf. rewrite CanXlFrame.canxl_frame_bytes_length by done.
  unfold CANXL_MIN_DLEN, CANXL_MAX_DLEN, CANXL_MIN_MTU, CANXL_MAX_MTU. lia.
Qed.

(** ** Witnesses on concrete frames *)

(** A standard-format frame, id 0x123, two data bytes. *)
Definition demo_can_frame : CanFrame.can_frame :=
  CanFrame.mk_can_frame 0x123 2 0 0 0
    [Byte.xde; Byte.xad; Byte.x00; Byte.x00; Byte.x00; Byte.x00; Byte.x00; Byte.x00].

Lemma demo_can_frame_wf : CanFrame.can_frame_wf demo_can_frame.
Proof. unfold CanFrame.can_frame_wf, in_uint. simpl. split_and!; lia || done. Qed.

Definition demo_canfd_frame : CanFdFrame.canfd_frame :=
  CanFdFrame.mk_canfd_frame (Z.lor CAN_EFF_FLAG 0x1234567) 12 1 0 0 (repeat Byte.x55 64).

Lemma demo_canfd_frame_wf : CanFdFrame.canfd_frame_wf demo_canfd_frame.
Proof. unfold CanFdFrame.canfd_frame_wf, in_uint. simpl. split_and!; lia || done. Qed.

(** A CAN XL frame with the largest payload. *)
Definition demo_canxl_frame : CanXlFrame.canxl_frame :=
  CanXlFrame.mk_canxl_frame 0x7ff 0x80 0 CANXL_MAX_DLEN 0 (repeat Byte.x00 2048).

Lemma demo_canxl_frame_wf : CanXlFrame.canxl_frame_wf demo_canxl_frame.
Proof.
  unfold CanXlFrame.canxl_frame_wf, in_uint, CANXL_MAX_DLEN, CANXL_MIN_DLEN, demo_canxl_frame.
  cbn [CanXlFrame.prio CanXlFrame.flags CanXlFrame.sdt CanXlFrame.len CanXlFrame.af CanXlFrame.data].
  rewrite repeat_length. unfold CANXL_MAX_DLEN. split_and!; lia.
Qed.

Lemma can_frame_bytes_length_witness :
  Z.of_nat (length (CanFrame.can_frame_bytes demo_can_frame)) = CAN_MTU.
Proof. apply CanFrame.can_frame_bytes_length, demo_can_frame_wf. Defined.

Lemma canfd_frame_bytes_length_witness :
  Z.of_nat (length (CanFdFrame.canfd_frame_bytes demo_canfd_frame)) = CANFD_MTU.
Proof. apply CanFdFrame.canfd_frame_bytes_length, demo_canfd_frame_wf. Defined.

Lemma canxl_mtu_range_vs_frame_size_witness :
  CANXL_MAX_MTU < Z.of_nat (length (CanXlFrame.canxl_frame_bytes demo_canxl_frame)).
Proof. apply (canxl_mtu_range_vs_frame_size demo_canxl_frame demo_canxl_frame_wf). reflexivity. Defined.
