(* ===== verification/Registry.v ===== *)
(** * The interface slot table of vcan_simple.cpp

    The static members [VirtualCANInterface::interfaces[VCAN_MAX_INTERFACES]]
    and [VirtualCANInterface::interface_count] (lines 41-42, 49-50), and the
    code of [create_interface] and [destroy_interface] that runs under
    [interface_lock]: the scan for the lowest free slot and its claim
    (lines 121-137), and the release (lines 156-159, 175-178, 192-195).
    An instance is named by its [this] pointer, an object id [obj].

    The theorems: the scan is total within its 16 iterations and equals a
    declarative "lowest free slot" reference; the table invariant
    (16 entries, [interface_count] equal to the number of used entries, no
    instance in two entries) is preserved by claim and release; a claim
    fails exactly when the table is full; 16 claims from the initial
    table get slots 0..15 and the 17th fails; a released slot is reused;
    and the table refines an abstract finite map slot -> owner whose claim
    inserts at the least free key and whose release deletes. *)

From S2P Require Import Prelude.

(** [#define VCAN_MAX_INTERFACES 16] (line 14). *)
Definition VCAN_MAX_INTERFACES : nat := 16.

(** An instance, named by its [this] pointer. *)
Abbreviation obj := nat.

Module Registry.

(** The two static members the lock guards. *)
Record registry := mk_registry {
  interfaces : list (option obj);   (* VirtualCANInterface *interfaces[16] *)
  interface_count : Z               (* UInt32 interface_count *)
}.

(** Static initialisation: [= {0}] and [= 0] (lines 49-50). *)
Definition registry_init : registry :=
  {| interfaces := replicate VCAN_MAX_INTERFACES None; interface_count := 0 |}.

(** [for (index = 0; index < VCAN_MAX_INTERFACES; index++)
       if (interfaces[index] == NULL) break;]
    (lines 122-127), from a given [index], with one unit of fuel per
    iteration. *)
Fixpoint find_slot_loop (tbl : list (option obj)) (index : nat) (fuel : nat) : nat :=
  match fuel with
  | O => index
  | S fuel' =>
      if decide (index < VCAN_MAX_INTERFACES)%nat then
        match tbl !! index with
        | Some None => index
        | _ => find_slot_loop tbl (S index) fuel'
        end
      else index
  end.

(** The loop of [create_interface], started at 0 with as many iterations
    as the bound allows. *)
Definition find_slot (tbl : list (option obj)) : nat :=
  find_slot_loop tbl 0 VCAN_MAX_INTERFACES.

(** Lines 129-137: fail when no slot is free, otherwise
    [interfaces[index] = this; interface_count++]. *)
Definition acquire_slot (r : registry) (self : obj) : option (nat * registry) :=
  let index := find_slot (interfaces r) in
  if decide (VCAN_MAX_INTERFACES <= index)%nat then None
  else Some (index, {| interfaces := <[index := Some self]> (interfaces r);
                       interface_count := interface_count r +u32 1 |}).

(** [interfaces[index] = NULL; interface_count--;] (lines 157-158,
    176-177, 193-194). *)
Definition release_slot (r : registry) (index : nat) : registry :=
  {| interfaces := <[index := None]> (interfaces r);
     interface_count := interface_count r -u32 1 |}.

(** The table invariant the lock protects. *)
Definition registry_wf (r : registry) : Prop :=
  length (interfaces r) = VCAN_MAX_INTERFACES /\
  interface_count r = Z.of_nat (count_used (interfaces r)) /\
  (forall i j o, interfaces r !! i = Some (Some o) -> interfaces r !! j = Some (Some o) -> i = j).

(** [o] owns a slot of the table. *)
Definition owns (r : registry) (o : obj) : Prop :=
  exists i, interfaces r !! i = Some (Some o).

(** [n] instances started one after the other: the slots they get, in
    order, or [None] when one of the claims fails. *)
Fixpoint acquire_all (r : registry) (os : list obj) : option (list nat * registry) :=
  match os with
  | [] => Some ([], r)
  | o :: os' =>
      '(i, r1) ← acquire_slot r o;
      '(slots, r2) ← acquire_all r1 os';
      Some (i :: slots, r2)
  end.

(** The table after the instances [pre] claimed slots from the initial
    one: their owners first, then free entries. *)
Definition prefix_table (pre : list obj) : list (option obj) :=
  (Some <$> pre) ++ replicate (VCAN_MAX_INTERFACES - length pre) None.

(** ** Abstract specification: a finite map slot -> owner *)

(** The table seen as the map from used slots to their owners. *)
Definition slot_map (tbl : list (option obj)) : gmap nat obj :=
  omap id (map_seq 0 tbl).

(** The least key below [VCAN_MAX_INTERFACES] that the map lacks. *)
Definition spec_lowest (m : gmap nat obj) : nat :=
  match list_find (fun i => m !! i = None) (seq 0 VCAN_MAX_INTERFACES) with
  | Some (_, i) => i
  | None => VCAN_MAX_INTERFACES
  end.

(** What a claim promises: the owner is bound at the least unbound slot,
    if there is one. *)
Definition spec_acquire (m : gmap nat obj) (o : obj) : option (nat * gmap nat obj) :=
  let i := spec_lowest m in
  if decide (i < VCAN_MAX_INTERFACES)%nat then Some (i, <[i:=o]> m) else None.

(** What a release promises: the slot is unbound. *)
Definition spec_release (m : gmap nat obj) (i : nat) : gmap nat obj := delete i m.

(** ** Reference: the lowest free slot *)

(** The first free entry among the first [VCAN_MAX_INTERFACES], or
    [VCAN_MAX_INTERFACES] when there is none. *)
Definition lowest_free (tbl : list (option obj)) : nat :=
  match list_find (fun o => o = None) (take VCAN_MAX_INTERFACES tbl) with
  | Some (i, _) => i
  | None => VCAN_MAX_INTERFACES
  end.

(** [i] is the lowest free slot: every slot below is used, and [i] is
    free or [VCAN_MAX_INTERFACES]. *)
Definition is_lowest_free (tbl : list (option obj)) (i : nat) : Prop :=
  (i <= VCAN_MAX_INTERFACES)%nat /\
  (forall j, (j < i)%nat -> tbl !! j <> Some None) /\
  ((i < VCAN_MAX_INTERFACES)%nat -> tbl !! i = Some None).

(** ** The scan *)

Lemma is_lowest_free_unique tbl i1 i2 :
  is_lowest_free tbl i1 -> is_lowest_free tbl i2 -> i1 = i2.
Proof.
  intros (H1&L1&F1) (H2&L2&F2).
  destruct (Nat.lt_trichotomy i1 i2) as [Hlt|[Heq|Hlt]]; [|done|].
  - exfalso. apply (L2 i1 Hlt), F1. lia.
  - exfalso. apply (L1 i2 Hlt), F2. lia.
Qed.

(** The loop from [index], with enough fuel to reach the bound, finds the
    lowest free slot when no slot below [index] is free. *)
Lemma find_slot_loop_lowest tbl index fuel :
  (index <= VCAN_MAX_INTERFACES <= index + fuel)%nat ->
  (forall j, (j < index)%nat -> tbl !! j <> Some None) ->
  is_lowest_free tbl (find_slot_loop tbl index fuel).
Proof.
  revert index. induction fuel as [|fuel IH]; intros index Hb Hbelow; simpl.
  - assert (index = VCAN_MAX_INTERFACES) as -> by lia. split_and!; [lia|done|lia].
  - case_decide as Hlt; [|split_and!; [lia|done|lia]].
    destruct (tbl !! index) as [[o|]|] eqn:Hi.
    + apply IH; [lia|]. intros j Hj.
      destruct (decide (j = index)) as [->|]; [congruence|]. apply Hbelow. lia.
    + split_and!; [lia|done|done].
    + apply IH; [lia|]. intros j Hj.
      destruct (decide (j = index)) as [->|]; [congruence|]. apply Hbelow. lia.
Qed.

Lemma find_slot_lowest tbl : is_lowest_free tbl (find_slot tbl).
Proof. apply find_slot_loop_lowest; [lia|]. intros j Hj. lia. Qed.

Lemma lowest_free_lowest tbl : is_lowest_free tbl (lowest_free tbl).
Proof.
  unfold lowest_free.
  destruct (list_find _ _) as [[i o]|] eqn:Hf.
  - apply list_find_Some in Hf as (Hi&->&Hbelow).
    rewrite lookup_take_Some in Hi. destruct Hi as [Hi Hlt].
    split_and!; [lia| |done]. intros j Hj Hjfree.
    apply (Hbelow j None); [|lia|done]. rewrite lookup_take_Some. split; [done|lia].
  - apply list_find_None in Hf. rewrite Forall_forall in Hf.
    split_and!; [done| |lia]. intros j Hj Hjfree.
    apply (Hf None); [|done]. apply list_elem_of_lookup. exists j.
    rewrite lookup_take_Some. split; [done|lia].
Qed.

(** C8. The scan of [create_interface] equals the reference. *)
Theorem find_slot_eq_lowest_free tbl : find_slot tbl = lowest_free tbl.
Proof. apply (is_lowest_free_unique tbl); [apply find_slot_lowest|apply lowest_free_lowest]. Qed.

(** C33. The fuel of the model never cuts the loop short: with any more
    iterations it returns the same slot. *)
Theorem find_slot_fuel tbl extra :
  find_slot_loop tbl 0 (VCAN_MAX_INTERFACES + extra) = find_slot tbl.
Proof.
  apply (is_lowest_free_unique tbl); [|apply find_slot_lowest].
  apply find_slot_loop_lowest; [lia|]. intros j Hj. lia.
Qed.

(** ** Claim and release *)

Lemma registry_wf_count_bound r :
  registry_wf r -> (0 <= interface_count r <= Z.of_nat VCAN_MAX_INTERFACES)%Z.
Proof.
  intros (Hlen&Hc&_). rewrite Hc, <- Hlen. pose proof (count_used_le (interfaces r)). lia.
Qed.

(** A well-formed table none of whose slots is used is the initial one. *)
Lemma registry_wf_unused_init r :
  registry_wf r -> (forall i o, interfaces r !! i <> Some (Some o)) -> r = registry_init.
Proof.
  intros (Hlen&Hc&_) Hnone.
  assert (Htbl : interfaces r = replicate VCAN_MAX_INTERFACES None).
  { symmetry. apply replicate_as_elem_of. split; [done|]. intros [o|] Hy; [|done].
    apply list_elem_of_lookup_1 in Hy as [i Hi]. by destruct (Hnone i o). }
  destruct r as [tbl cnt]. cbn [interfaces interface_count] in *. subst tbl.
  rewrite count_used_replicate_None in Hc.
  by subst cnt.
Qed.

(** A full table has no free entry. *)
Lemma registry_full_no_free r :
  registry_wf r -> interface_count r = Z.of_nat VCAN_MAX_INTERFACES ->
  forall j, interfaces r !! j <> Some None.
Proof.
  intros (Hlen&Hc&_) Hfull j Hj.
  pose proof (count_used_insert_fill (interfaces r) j 0%nat Hj) as Hfill.
  pose proof (count_used_le (<[j:=Some 0%nat]> (interfaces r))) as Hle.
  rewrite length_insert in Hle. lia.
Qed.

(** The scan reaches the bound exactly when the table is full. *)
Lemma find_slot_full r :
  registry_wf r ->
  (VCAN_MAX_INTERFACES <= find_slot (interfaces r))%nat <->
  interface_count r = Z.of_nat VCAN_MAX_INTERFACES.
Proof.
  intros Hwf. pose proof (find_slot_lowest (interfaces r)) as (Hle&Hbelow&Hfree).
  split.
  - intros Hge. destruct Hwf as (Hlen&Hc&_). rewrite Hc, <- Hlen. f_equal.
    apply count_used_full. intros i [o|] Hi; [by eexists|].
    exfalso. apply (Hbelow i); [|done].
    apply lookup_lt_Some in Hi. lia.
  - intros Hfull. destruct (decide (find_slot (interfaces r) < VCAN_MAX_INTERFACES)%nat) as [Hlt|]; [|lia].
    exfalso. by apply (registry_full_no_free r Hwf Hfull _ (Hfree Hlt)).
Qed.

(** [create_interface]'s early return: the claim fails, leaving the
    table untouched, exactly when all [VCAN_MAX_INTERFACES] slots are
    used. *)
Lemma acquire_slot_fails_iff_full r self :
  registry_wf r ->
  acquire_slot r self = None <-> interface_count r = Z.of_nat VCAN_MAX_INTERFACES.
Proof.
  intros Hwf. rewrite <- find_slot_full by done. unfold acquire_slot.
  case_decide; split; intros Heq; done || lia.
Qed.

(** C5. [create_interface]'s early return: the claim fails, leaving the
    table untouched, exactly when all [VCAN_MAX_INTERFACES] slots are
    used. *)
Theorem acquire_slot_None_iff r self :
  registry_wf r ->
  acquire_slot r self = None <-> interface_count r = Z.of_nat VCAN_MAX_INTERFACES.
Proof. apply acquire_slot_fails_iff_full. Qed.

(** A successful claim takes the lowest free slot, stores [this] there
    and counts it. *)
Lemma acquire_slot_Some_inv r self i r' :
  acquire_slot r self = Some (i, r') ->
  is_lowest_free (interfaces r) i /\ (i < VCAN_MAX_INTERFACES)%nat /\
  interfaces r' = <[i:=Some self]> (interfaces r) /\
  interface_count r' = interface_count r +u32 1.
Proof.
  unfold acquire_slot. case_decide as Hge; [done|]. intros [= <- <-].
  split_and!; [apply find_slot_lowest|lia|done|done].
Qed.

(** Entries that are not touched keep their owner. *)
Lemma owner_unique_insert (tbl : list (option obj)) i self :
  (forall j k o, tbl !! j = Some (Some o) -> tbl !! k = Some (Some o) -> j = k) ->
  (forall j, tbl !! j <> Some (Some self)) ->
  forall j k o, <[i:=Some self]> tbl !! j = Some (Some o) ->
    <[i:=Some self]> tbl !! k = Some (Some o) -> j = k.
Proof.
  intros Huniq Hnot j k o Hj Hk.
  apply list_lookup_insert_Some in Hj as [(->&?&_)|(_&Hj)];
    apply list_lookup_insert_Some in Hk as [(->&?&_)|(_&Hk)]; simplify_eq; try done.
  - by destruct (Hnot k).
  - by destruct (Hnot j).
  - eauto.
Qed.

(** The claim preserves the table invariant when the instance held no
    slot, and counts one more instance. *)
Lemma acquire_slot_keeps_wf r self i r' :
  registry_wf r -> ~ owns r self ->
  acquire_slot r self = Some (i, r') ->
  registry_wf r' /\ interface_count r' = interface_count r + 1 /\
  interfaces r !! i = Some None /\ interfaces r' !! i = Some (Some self).
Proof.
  intros Hwf Hnot Hacq.
  pose proof (registry_wf_count_bound r Hwf) as Hb.
  destruct (acquire_slot_Some_inv _ _ _ _ Hacq) as ((_&_&Hfree)&Hlt&Htbl&Hcnt).
  specialize (Hfree Hlt). destruct Hwf as (Hlen&Hc&Huniq).
  assert (Hcnt' : interface_count r' = interface_count r + 1).
  { rewrite Hcnt. apply u32_wrap_small. unfold in_uint.
    pose proof (count_used_insert_fill _ _ self Hfree) as Hf.
    pose proof (count_used_le (<[i:=Some self]> (interfaces r))) as Hle.
    rewrite length_insert in Hle. unfold VCAN_MAX_INTERFACES in *. lia. }
  split_and!; [|done|done|].
  - split_and!.
    + by rewrite Htbl, length_insert.
    + rewrite Hcnt', Htbl, (count_used_insert_fill _ _ _ Hfree), Hc. lia.
    + rewrite Htbl. apply owner_unique_insert; [done|].
      intros j Hj. apply Hnot. by exists j.
  - rewrite Htbl. apply list_lookup_insert_eq. lia.
Qed.

(** C4. The claim preserves the table invariant when the instance held no
    slot, and counts one more instance. *)
Theorem acquire_slot_wf r self i r' :
  registry_wf r -> ~ owns r self ->
  acquire_slot r self = Some (i, r') ->
  registry_wf r' /\ interface_count r' = interface_count r + 1 /\
  interfaces r !! i = Some None /\ interfaces r' !! i = Some (Some self).
Proof. apply acquire_slot_keeps_wf. Qed.

(** The release empties the slot, uncounts the instance, and preserves the
    table invariant; its owner holds no slot afterwards. *)
Lemma release_slot_keeps_wf r i o :
  registry_wf r -> interfaces r !! i = Some (Some o) ->
  registry_wf (release_slot r i) /\
  interface_count (release_slot r i) = interface_count r - 1 /\
  ~ owns (release_slot r i) o.
Proof.
  intros (Hlen&Hc&Huniq) Hi.
  pose proof (count_used_insert_clear _ _ _ Hi) as Hclr.
  pose proof (count_used_le (interfaces r)) as Hle.
  assert (Hcnt : interface_count (release_slot r i) = interface_count r - 1).
  { simpl. apply u32_wrap_small. unfold in_uint, VCAN_MAX_INTERFACES in *. lia. }
  split_and!; [|done|].
  - split_and!.
    + simpl. by rewrite length_insert.
    + rewrite Hcnt. simpl. rewrite Hc. lia.
    + simpl. intros j k o' Hj Hk.
      apply list_lookup_insert_Some in Hj as [(_&[=]&_)|(_&Hj)].
      apply list_lookup_insert_Some in Hk as [(_&[=]&_)|(_&Hk)]. eauto.
  - intros [j Hj]. simpl in Hj.
    apply list_lookup_insert_Some in Hj as [(_&[=]&_)|(Hne&Hj)].
    by apply Hne, (Huniq i j o).
Qed.

(** C18. The release empties the slot, uncounts the instance, and preserves the
    table invariant; its owner holds no slot afterwards. *)
Theorem release_slot_wf r i o :
  registry_wf r -> interfaces r !! i = Some (Some o) ->
  registry_wf (release_slot r i) /\
  interface_count (release_slot r i) = interface_count r - 1 /\
  ~ owns (release_slot r i) o.
Proof. apply release_slot_keeps_wf. Qed.

(** ** Successive claims from the initial table *)

Lemma count_used_fmap_Some (l : list obj) : count_used (Some <$> l) = length l.
Proof. induction l as [|o l IH]; [done|]. by rewrite fmap_cons, count_used_cons_Some, IH. Qed.

Lemma prefix_table_lowest pre :
  (length pre <= VCAN_MAX_INTERFACES)%nat -> is_lowest_free (prefix_table pre) (length pre).
Proof.
  intros Hle. unfold prefix_table. split_and!; [done| |].
  - intros j Hj. rewrite lookup_app_l by (rewrite length_fmap; lia).
    rewrite list_lookup_fmap. by destruct (pre !! j).
  - intros Hlt. rewrite lookup_app_r by (rewrite length_fmap; lia).
    rewrite length_fmap, Nat.sub_diag. apply lookup_replicate_2. lia.
Qed.

Lemma prefix_table_insert pre o :
  (length pre < VCAN_MAX_INTERFACES)%nat ->
  <[length pre := Some o]> (prefix_table pre) = prefix_table (pre ++ [o]).
Proof.
  intros Hlt. unfold prefix_table.
  rewrite insert_app_r_alt by (rewrite length_fmap; lia).
  rewrite length_fmap, Nat.sub_diag, length_app, fmap_app, <- app_assoc. simpl.
  destruct (VCAN_MAX_INTERFACES - length pre)%nat as [|n] eqn:E; [lia|].
  simpl. do 2 f_equal. f_equal. lia.
Qed.

Lemma prefix_table_wf pre :
  NoDup pre -> (length pre <= VCAN_MAX_INTERFACES)%nat ->
  registry_wf (mk_registry (prefix_table pre) (Z.of_nat (length pre))).
Proof.
  intros Hnd Hle. unfold prefix_table. split_and!; simpl.
  - rewrite length_app, length_fmap, length_replicate. lia.
  - by rewrite count_used_app, count_used_fmap_Some, count_used_replicate_None, Nat.add_0_r.
  - intros i j o Hi Hj.
    rewrite lookup_app, list_lookup_fmap in Hi, Hj.
    destruct (pre !! i) eqn:Ei; destruct (pre !! j) eqn:Ej; simplify_eq/=.
    + by eapply NoDup_lookup.
    + apply lookup_replicate in Hj as [[=] _].
    + apply lookup_replicate in Hi as [[=] _].
    + apply lookup_replicate in Hi as [[=] _].
Qed.

Lemma acquire_all_prefix pre os :
  NoDup (pre ++ os) -> (length pre + length os <= VCAN_MAX_INTERFACES)%nat ->
  acquire_all (mk_registry (prefix_table pre) (Z.of_nat (length pre))) os =
  Some (seq (length pre) (length os),
        mk_registry (prefix_table (pre ++ os)) (Z.of_nat (length (pre ++ os)))).
Proof.
  revert pre. induction os as [|o os IH]; intros pre Hnd Hle.
  - by rewrite app_nil_r.
  - simpl in Hle. simpl. unfold acquire_slot at 1. simpl.
    rewrite <- (is_lowest_free_unique _ _ _ (prefix_table_lowest pre ltac:(lia)) (find_slot_lowest _)).
    rewrite decide_False by lia. simpl.
    rewrite prefix_table_insert by lia.
    replace (Z.of_nat (length pre) +u32 1) with (Z.of_nat (length (pre ++ [o]))).
    2:{ rewrite length_app. simpl. rewrite u32_wrap_small; [lia|].
        unfold in_uint, VCAN_MAX_INTERFACES in *. lia. }
    rewrite IH by first [rewrite <- app_assoc; done | rewrite length_app; simpl; lia].
    rewrite <- app_assoc, length_app. simpl. by rewrite Nat.add_1_r.
Qed.

(** C14. The first [VCAN_MAX_INTERFACES] instances started from the initial
    table get the slots 0, 1, ..., 15 in order; the next claim fails. *)
Theorem acquire_sixteen os o :
  NoDup os -> length os = VCAN_MAX_INTERFACES ->
  exists r, acquire_all registry_init os = Some (seq 0 VCAN_MAX_INTERFACES, r) /\
            acquire_slot r o = None.
Proof.
  intros Hnd Hlen.
  pose proof (acquire_all_prefix [] os Hnd ltac:(simpl; lia)) as Hall. simpl in Hall.
  eexists. split; [rewrite <- Hlen; exact Hall|].
  apply acquire_slot_fails_iff_full; [|simpl; by rewrite Hlen].
  apply prefix_table_wf; [done|lia].
Qed.

(** ** Release and reuse *)

(** C15. After a slot is released, the next claim takes the lower of that slot
    and the lowest slot that was already free: a released slot is reused
    when nothing below it is free. *)
Theorem release_acquire_slot r i o o' :
  registry_wf r -> interfaces r !! i = Some (Some o) ->
  exists r', acquire_slot (release_slot r i) o' =
             Some (Nat.min i (find_slot (interfaces r)), r').
Proof.
  intros (Hlen&_&_) Hi. pose proof (lookup_lt_Some _ _ _ Hi) as Hlt.
  assert (Hlow : is_lowest_free (<[i:=None]> (interfaces r)) (Nat.min i (find_slot (interfaces r)))).
  { pose proof (find_slot_lowest (interfaces r)) as (Hle&Hbelow&Hfree).
    split_and!; [lia| |].
    - intros j Hj. rewrite list_lookup_insert_ne by lia. apply Hbelow. lia.
    - intros Hm. destruct (decide (i <= find_slot (interfaces r)))%nat.
      + rewrite Nat.min_l by lia. apply list_lookup_insert_eq. lia.
      + rewrite Nat.min_r, list_lookup_insert_ne by lia. apply Hfree. lia. }
  unfold acquire_slot. simpl.
  rewrite (is_lowest_free_unique _ _ _ (find_slot_lowest _) Hlow).
  rewrite decide_False by lia. by eexists.
Qed.

(** ** Refinement of the abstract map *)

Lemma lookup_slot_map tbl i : slot_map tbl !! i = tbl !! i ≫= id.
Proof. unfold slot_map. by rewrite lookup_omap, lookup_map_seq_0. Qed.

Lemma slot_map_free tbl i :
  (i < length tbl)%nat -> slot_map tbl !! i = None <-> tbl !! i = Some None.
Proof.
  intros Hi. rewrite lookup_slot_map.
  destruct (lookup_lt_is_Some_2 tbl i Hi) as [x ->]. destruct x; naive_solver.
Qed.

Lemma spec_lowest_lowest tbl :
  length tbl = VCAN_MAX_INTERFACES -> is_lowest_free tbl (spec_lowest (slot_map tbl)).
Proof.
  intros Hlen. unfold spec_lowest.
  destruct (list_find _ _) as [[k i]|] eqn:Hf.
  - apply list_find_Some in Hf as (Hk&Hfree&Hbelow).
    apply lookup_seq in Hk as [-> Hk]. change (0 + k)%nat with k in *.
    split_and!; [lia| |intros; by apply slot_map_free; [lia|]].
    intros j Hj Hjfree. apply (Hbelow j j); [by apply lookup_seq_lt; lia|lia|].
    apply slot_map_free; [lia|done].
  - apply list_find_None in Hf. rewrite Forall_forall in Hf.
    split_and!; [done| |lia]. intros j Hj Hjfree.
    apply (Hf j); [apply list_elem_of_lookup; exists j; by apply lookup_seq_lt|].
    apply slot_map_free; [lia|done].
Qed.

Lemma slot_map_insert_Some tbl i o :
  (i < length tbl)%nat -> slot_map (<[i:=Some o]> tbl) = <[i:=o]> (slot_map tbl).
Proof.
  intros Hi. apply map_eq. intros j. rewrite lookup_slot_map.
  destruct (decide (i = j)) as [->|Hne].
  - by rewrite list_lookup_insert_eq, lookup_insert_eq.
  - by rewrite list_lookup_insert_ne, lookup_insert_ne, lookup_slot_map.
Qed.

Lemma slot_map_insert_None tbl i :
  (i < length tbl)%nat -> slot_map (<[i:=None]> tbl) = delete i (slot_map tbl).
Proof.
  intros Hi. apply map_eq. intros j. rewrite lookup_slot_map.
  destruct (decide (i = j)) as [->|Hne].
  - by rewrite list_lookup_insert_eq, lookup_delete_eq.
  - by rewrite list_lookup_insert_ne, lookup_delete_ne, lookup_slot_map.
Qed.

(** C16. The claim of [create_interface] implements the abstract claim: on a
    well-formed table it fails when the abstract claim fails, and
    otherwise takes the same slot and leaves the table whose map is the
    abstract result. *)
Theorem acquire_slot_refines r o :
  registry_wf r ->
  (fun '(i, r') => (i, slot_map (interfaces r'))) <$> acquire_slot r o =
  spec_acquire (slot_map (interfaces r)) o.
Proof.
  intros (Hlen&_&_). unfold acquire_slot, spec_acquire.
  rewrite <- (is_lowest_free_unique _ _ _ (find_slot_lowest _) (spec_lowest_lowest _ Hlen)).
  case_decide; rewrite ?decide_False, ?decide_True by lia; [done|].
  simpl. rewrite slot_map_insert_Some by lia. done.
Qed.

(** C17. The release implements the abstract release. *)
Theorem release_slot_refines r i :
  registry_wf r -> (i < VCAN_MAX_INTERFACES)%nat ->
  slot_map (interfaces (release_slot r i)) = spec_release (slot_map (interfaces r)) i.
Proof. intros (Hlen&_&_) Hi. apply slot_map_insert_None. lia. Qed.

(** ** Witnesses on concrete tables *)

Lemma registry_init_wf : registry_wf registry_init.
Proof. apply (prefix_table_wf []); [constructor|simpl; lia]. Qed.

Lemma registry_init_not_owns o : ~ owns registry_init o.
Proof. intros [i Hi]. apply lookup_replicate in Hi as [[=] _]. Qed.

(** The table after instance 7 took slot 0. *)
Definition registry_one : registry := mk_registry (prefix_table [7%nat]) 1.

Lemma registry_one_wf : registry_wf registry_one.
Proof. apply (prefix_table_wf [7%nat]); [apply NoDup_singleton|cbv; lia]. Qed.

Lemma acquire_slot_wf_witness :
  registry_wf (mk_registry (<[0%nat:=Some 7%nat]> (interfaces registry_init)) 1) /\
  interface_count (mk_registry (<[0%nat:=Some 7%nat]> (interfaces registry_init)) 1) =
    interface_count registry_init + 1 /\
  interfaces registry_init !! 0%nat = Some None /\
  interfaces (mk_registry (<[0%nat:=Some 7%nat]> (interfaces registry_init)) 1) !! 0%nat =
    Some (Some 7%nat).
Proof.
  apply (acquire_slot_wf registry_init 7 0); [apply registry_init_wf|apply registry_init_not_owns|].
  reflexivity.
Defined.

Lemma acquire_slot_None_iff_witness :
  acquire_slot registry_init 3 = None <-> interface_count registry_init = Z.of_nat VCAN_MAX_INTERFACES.
Proof. apply acquire_slot_None_iff. apply registry_init_wf. Defined.

Lemma release_slot_wf_witness :
  registry_wf (release_slot registry_one 0) /\
  interface_count (release_slot registry_one 0) = interface_count registry_one - 1 /\
  ~ owns (release_slot registry_one 0) 7.
Proof. apply release_slot_wf; [apply registry_one_wf|reflexivity]. Defined.

Lemma acquire_sixteen_witness :
  exists r, acquire_all registry_init (seq 100 16) = Some (seq 0 VCAN_MAX_INTERFACES, r) /\
            acquire_slot r 200 = None.
Proof. apply acquire_sixteen; [apply NoDup_seq|reflexivity]. Defined.

Lemma release_acquire_slot_witness :
  exists r', acquire_slot (release_slot registry_one 0) 8 =
             Some (Nat.min 0 (find_slot (interfaces registry_one)), r').
Proof. apply (release_acquire_slot registry_one 0 7 8); [apply registry_one_wf|reflexivity]. Defined.

Lemma acquire_slot_refines_witness :
  (fun '(i, r') => (i, slot_map (interfaces r'))) <$> acquire_slot registry_one 8 =
  spec_acquire (slot_map (interfaces registry_one)) 8.
Proof. apply acquire_slot_refines, registry_one_wf. Defined.

Lemma release_slot_refines_witness :
  slot_map (interfaces (release_slot registry_one 0)) =
  spec_release (slot_map (interfaces registry_one)) 0.
Proof. apply release_slot_refines; [apply registry_one_wf|cbv; lia]. Defined.

End Registry.
