(* ===== verification/Ifnet.v ===== *)
(** * The network-stack KPI the driver calls

    The driver talks to the BSD network stack of macOS only through the
    [ifnet_*] and [mbuf_*] calls of <net/kpi_interface.h> and
    <sys/kpi_mbuf.h>.  They are not code of this repository, so they are
    an interface here: the class [IfnetKPI] lists the calls the driver
    makes on an abstract interface object [I], and the class [IfnetLaws]
    states what the stack promises about them through an observation
    [ifnet_view] (MTU, flags, attachment, statistics, and the packets
    handed up by [ifnet_input]).  The driver's theorems are proved against
    these laws; [ViewIfnet] is an implementation that satisfies them,
    which shows the laws consistent and runs the witnesses.

    Packets ([mbuf_t]) are values: the driver never shares one after
    handing it over ([mbuf_freem] or [ifnet_input] consume it). *)

From S2P Require Import Prelude Registry.
From stdpp Require Import strings.
From coqutil Require Import Byte.

Abbreviation byte := Init.Byte.byte.

(** ** Flags and constants of the SDK headers *)

(** <net/if.h> *)
Definition IFF_UP : Z := 0x1.
Definition IFF_BROADCAST : Z := 0x2.
Definition IFF_NOARP : Z := 0x80.
Definition IFF_SIMPLEX : Z := 0x800.

(** <net/if_types.h> *)
Definition IFT_OTHER : Z := 0x1.

(** <sys/kpi_mbuf.h>: [MBUF_LOOP], "packet is looped back". *)
Definition MBUF_LOOP : Z := 0x40.

(** ** Packets *)

(** The parts of an [mbuf_t] packet the driver reads or writes. *)
Record mbuf := mk_mbuf {
  m_pkthdr_len : Z;          (* mbuf_pkthdr_len, a size_t *)
  m_flags : Z;               (* mbuf_flags *)
  m_data : list byte;        (* the frame *)
  m_rcvif : option Z         (* mbuf_pkthdr_rcvif, by interface unit *)
}.

Definition mbuf_pkthdr_len (m : mbuf) : Z := m_pkthdr_len m.
Definition mbuf_flags (m : mbuf) : Z := m_flags m.

(** [mbuf_pkthdr_setrcvif(m, ifp)], the interface named by its unit. *)
Definition mbuf_pkthdr_setrcvif (m : mbuf) (unit : Z) : mbuf :=
  {| m_pkthdr_len := m_pkthdr_len m; m_flags := m_flags m;
     m_data := m_data m; m_rcvif := Some unit |}.

(** A successful [mbuf_dup] is a copy of the whole packet. *)
Definition mbuf_dup_copy (m : mbuf) : mbuf := m.

(** ** Statistics *)

(** [struct ifnet_stat_increment_param]: the four counters the driver
    sets after [bzero] (the others stay 0), each a [u_int32_t]. *)
Record ifnet_stat_increment_param := mk_stat_param {
  packets_in : Z;
  bytes_in : Z;
  packets_out : Z;
  bytes_out : Z
}.

Definition stat_param_zero : ifnet_stat_increment_param := mk_stat_param 0 0 0 0.

(** The interface's 64-bit counters ([ifnet_stat_input_packets], ...). *)
Record if_stats := mk_if_stats {
  ipackets : Z;
  ibytes : Z;
  opackets : Z;
  obytes : Z
}.

Definition if_stats_zero : if_stats := mk_if_stats 0 0 0 0.

(** [ifnet_stat_increment]: each counter grows by the parameter, in
    [u_int64_t]. *)
Definition stats_add (s : if_stats) (p : ifnet_stat_increment_param) : if_stats :=
  {| ipackets := ipackets s +u64 packets_in p; ibytes := ibytes s +u64 bytes_in p;
     opackets := opackets s +u64 packets_out p; obytes := obytes s +u64 bytes_out p |}.

(** ** Allocation parameters *)

(** The fields of [struct ifnet_init_params] the driver sets. *)
Record ifnet_init_params := mk_init_params {
  ip_name : string;
  ip_unit : Z;
  ip_type : Z;
  ip_softc : obj
}.

(** ** The observable state of an interface *)

Record ifnet_view := mk_view {
  v_name : string;
  v_unit : Z;
  v_softc : obj;
  v_mtu : Z;
  v_flags : Z;
  v_addrlen : Z;
  v_hdrlen : Z;
  v_attached : bool;
  v_stats : if_stats;
  v_delivered : list mbuf
}.

(** A freshly allocated interface. *)
Definition view_alloc (p : ifnet_init_params) : ifnet_view :=
  mk_view (ip_name p) (ip_unit p) (ip_softc p) 0 0 0 0 false if_stats_zero [].

Definition view_set_mtu (v : ifnet_view) (mtu : Z) : ifnet_view :=
  mk_view (v_name v) (v_unit v) (v_softc v) (u32_wrap mtu) (v_flags v) (v_addrlen v)
    (v_hdrlen v) (v_attached v) (v_stats v) (v_delivered v).

(** [ifnet_set_flags(ifp, new_flags, mask)]: the bits of [mask] take the
    value of [new_flags], the others stay. *)
Definition view_set_flags (v : ifnet_view) (new_flags mask : Z) : ifnet_view :=
  mk_view (v_name v) (v_unit v) (v_softc v) (v_mtu v)
    (Z.lor (Z.land (v_flags v) (Z.lnot mask)) (Z.land new_flags mask))
    (v_addrlen v) (v_hdrlen v) (v_attached v) (v_stats v) (v_delivered v).

Definition view_set_addrlen (v : ifnet_view) (n : Z) : ifnet_view :=
  mk_view (v_name v) (v_unit v) (v_softc v) (v_mtu v) (v_flags v) n
    (v_hdrlen v) (v_attached v) (v_stats v) (v_delivered v).

Definition view_set_hdrlen (v : ifnet_view) (n : Z) : ifnet_view :=
  mk_view (v_name v) (v_unit v) (v_softc v) (v_mtu v) (v_flags v) (v_addrlen v)
    n (v_attached v) (v_stats v) (v_delivered v).

Definition view_set_attached (v : ifnet_view) (b : bool) : ifnet_view :=
  mk_view (v_name v) (v_unit v) (v_softc v) (v_mtu v) (v_flags v) (v_addrlen v)
    (v_hdrlen v) b (v_stats v) (v_delivered v).

Definition view_stat_increment (v : ifnet_view) (p : ifnet_stat_increment_param) : ifnet_view :=
  mk_view (v_name v) (v_unit v) (v_softc v) (v_mtu v) (v_flags v) (v_addrlen v)
    (v_hdrlen v) (v_attached v) (stats_add (v_stats v) p) (v_delivered v).

Definition view_input (v : ifnet_view) (m : mbuf) : ifnet_view :=
  mk_view (v_name v) (v_unit v) (v_softc v) (v_mtu v) (v_flags v) (v_addrlen v)
    (v_hdrlen v) (v_attached v) (v_stats v) (v_delivered v ++ [m]).

(** ** The interface between driver and stack *)

(** The calls the driver makes on an interface object. *)
Class IfnetKPI (I : Type) := {
  ifnet_allocate : ifnet_init_params -> I;
  ifnet_set_mtu : I -> Z -> I;
  ifnet_mtu : I -> Z;
  ifnet_set_flags : I -> Z -> Z -> I;
  ifnet_flags : I -> Z;
  ifnet_set_addrlen : I -> Z -> I;
  ifnet_set_hdrlen : I -> Z -> I;
  ifnet_attach : I -> I;
  ifnet_detach : I -> I;
  ifnet_softc : I -> obj;
  ifnet_unit : I -> Z;
  ifnet_stat_increment : I -> ifnet_stat_increment_param -> I;
  ifnet_input : I -> mbuf -> I;
  (** observation, for the specification only *)
  ifnet_view_of : I -> ifnet_view
}.

(** What the stack promises about those calls. *)
Class IfnetLaws (I : Type) `{!IfnetKPI I} := {
  view_ifnet_allocate p : ifnet_view_of (ifnet_allocate p) = view_alloc p;
  view_ifnet_set_mtu i m : ifnet_view_of (ifnet_set_mtu i m) = view_set_mtu (ifnet_view_of i) m;
  view_ifnet_set_flags i f mask :
    ifnet_view_of (ifnet_set_flags i f mask) = view_set_flags (ifnet_view_of i) f mask;
  view_ifnet_set_addrlen i n :
    ifnet_view_of (ifnet_set_addrlen i n) = view_set_addrlen (ifnet_view_of i) n;
  view_ifnet_set_hdrlen i n :
    ifnet_view_of (ifnet_set_hdrlen i n) = view_set_hdrlen (ifnet_view_of i) n;
  view_ifnet_attach i : ifnet_view_of (ifnet_attach i) = view_set_attached (ifnet_view_of i) true;
  view_ifnet_detach i : ifnet_view_of (ifnet_detach i) = view_set_attached (ifnet_view_of i) false;
  view_ifnet_stat_increment i p :
    ifnet_view_of (ifnet_stat_increment i p) = view_stat_increment (ifnet_view_of i) p;
  view_ifnet_input i m : ifnet_view_of (ifnet_input i m) = view_input (ifnet_view_of i) m;
  ifnet_mtu_view i : ifnet_mtu i = v_mtu (ifnet_view_of i);
  ifnet_flags_view i : ifnet_flags i = v_flags (ifnet_view_of i);
  ifnet_softc_view i : ifnet_softc i = v_softc (ifnet_view_of i);
  ifnet_unit_view i : ifnet_unit i = v_unit (ifnet_view_of i)
}.

(** ** An implementation: the observation itself *)

#[export] Instance ViewIfnet : IfnetKPI ifnet_view := {
  ifnet_allocate := view_alloc;
  ifnet_set_mtu := view_set_mtu;
  ifnet_mtu := v_mtu;
  ifnet_set_flags := view_set_flags;
  ifnet_flags := v_flags;
  ifnet_set_addrlen := view_set_addrlen;
  ifnet_set_hdrlen := view_set_hdrlen;
  ifnet_attach i := view_set_attached i true;
  ifnet_detach i := view_set_attached i false;
  ifnet_softc := v_softc;
  ifnet_unit := v_unit;
  ifnet_stat_increment := view_stat_increment;
  ifnet_input := view_input;
  ifnet_view_of i := i
}.

#[export] Instance ViewIfnet_laws : IfnetLaws ifnet_view.
Proof. split; reflexivity. Qed.

(** ** Lemmas on the observation *)

Lemma stats_add_zero s : stats_add s stat_param_zero = mk_if_stats
  (u64_wrap (ipackets s)) (u64_wrap (ibytes s)) (u64_wrap (opackets s)) (u64_wrap (obytes s)).
Proof. unfold stats_add. simpl. by rewrite !Z.add_0_r. Qed.

(** The counters are [u_int64_t] values. *)
Definition stats_wf (st : if_stats) : Prop :=
  fits_u64 (ipackets st) /\ fits_u64 (ibytes st) /\ fits_u64 (opackets st) /\ fits_u64 (obytes st).

Lemma stats_add_wf st p : stats_wf (stats_add st p).
Proof. unfold stats_wf, stats_add. simpl. split_and!; apply u64_wrap_range. Qed.

Lemma stats_zero_wf : stats_wf if_stats_zero.
Proof. unfold stats_wf, in_uint. simpl. lia. Qed.

(** An increment of the output counters leaves the input counters. *)
Lemma stats_add_out st np nb :
  stats_wf st ->
  stats_add st (mk_stat_param 0 0 np nb) =
  mk_if_stats (ipackets st) (ibytes st) (opackets st +u64 np) (obytes st +u64 nb).
Proof.
  intros (Hip&Hib&_&_). unfold stats_add. simpl.
  rewrite !Z.add_0_r, (u64_wrap_small (ipackets st)), (u64_wrap_small (ibytes st)); done.
Qed.

(** An increment of the input counters leaves the output counters. *)
Lemma stats_add_in st np nb :
  stats_wf st ->
  stats_add st (mk_stat_param np nb 0 0) =
  mk_if_stats (ipackets st +u64 np) (ibytes st +u64 nb) (opackets st) (obytes st).
Proof.
  intros (_&_&Hop&Hob). unfold stats_add. simpl.
  rewrite !Z.add_0_r, (u64_wrap_small (opackets st)), (u64_wrap_small (obytes st)); done.
Qed.

(** An output increment followed by an input increment. *)
Lemma stats_add_out_in st np nb mp mb :
  stats_wf st ->
  stats_add (stats_add st (mk_stat_param 0 0 np nb)) (mk_stat_param mp mb 0 0) =
  mk_if_stats (ipackets st +u64 mp) (ibytes st +u64 mb) (opackets st +u64 np) (obytes st +u64 nb).
Proof.
  intros Hwf. rewrite stats_add_out by done. rewrite stats_add_in; [done|].
  destruct Hwf as (?&?&?&?). split_and!; simpl; done || apply u64_wrap_range.
Qed.
