(* ===== verification/Instance.v ===== *)
(** * The VirtualCANInterface instance and its lifecycle

    The member variables of [VirtualCANInterface] (lines 27-29), the
    statics it shares with the other instances (lines 41-43, 49-51), and
    the lifecycle methods: [init] (53-73), [free] (75-81), [start]
    (83-107), [stop] (109-113), [create_interface] (115-183) and
    [destroy_interface] (185-197).  Each method is a function from the
    statics and the instance to their new values and the method's result.

    What the environment decides is an input: whether [super::init] and
    [super::start] succeed, whether [IOLockAlloc] returns a lock, and the
    errno values [ifnet_allocate] and [ifnet_attach] return.  The
    interface object is abstract: every call on it goes through the
    [IfnetKPI] class of [Ifnet].

    The theorems: a successful [create_interface] leaves an attached
    interface configured as the code says, holding the slot it claimed; a
    failed one leaves the statics exactly as they were (no orphaned slot,
    no count); [destroy_interface] always gives the slot back when the
    instance holds one, and a second call does nothing (so [free] after
    [stop] is safe); the per-instance consistency between [interface],
    [interface_index] and the slot table is preserved. *)

From S2P Require Import Prelude Frame Registry Ifnet.
From stdpp Require Import strings.

Import Registry.
Open Scope Z_scope.
Open Scope vcan_scope.

(** ** Data *)

(** The IOKit property values [init] may find under "echo". *)
Inductive OSObject :=
| OSBoolean (value : bool)
| OSString (s : string)
| OSNumber (n : Z).

(** An [OSDictionary] of properties. *)
Abbreviation OSDictionary := (gmap string OSObject).

(** The members of one instance (lines 27-29). *)
Record VirtualCANInterface (I : Type) := mk_vcan {
  interface : option I;        (* ifnet_t interface, NULL as None *)
  echo_mode : bool;
  interface_index : nat        (* UInt32, always below VCAN_MAX_INTERFACES *)
}.
Arguments mk_vcan {I} _ _ _.
Arguments interface {I} _.
Arguments echo_mode {I} _.
Arguments interface_index {I} _.

(** The statics shared by all instances (lines 41-43): the slot table and
    whether [interface_lock] has been allocated. *)
Record statics := mk_statics {
  table : registry;
  interface_lock : bool        (* IOLock *interface_lock != NULL *)
}.

Definition statics_init : statics := mk_statics registry_init false.

Section Lifecycle.
Context {I : Type} `{!IfnetKPI I}.

Definition set_interface (s : VirtualCANInterface I) (ifp : option I) : VirtualCANInterface I :=
  mk_vcan ifp (echo_mode s) (interface_index s).

Definition set_interface_index (s : VirtualCANInterface I) (index : nat) : VirtualCANInterface I :=
  mk_vcan (interface s) (echo_mode s) index.

Definition set_table (g : statics) (r : registry) : statics :=
  mk_statics r (interface_lock g).

(** [OSDynamicCast(OSBoolean, getProperty("echo"))] then [isTrue()]
    (lines 64-70); [false] when absent or not a boolean. *)
Definition echo_property (properties : OSDictionary) : bool :=
  match properties !! "echo" with
  | Some (OSBoolean b) => b
  | _ => false
  end.

(** [init] (lines 53-73). *)
Definition init (super_init_ok : bool) (properties : OSDictionary)
    : option (VirtualCANInterface I) :=
  if negb super_init_ok then None
  else Some (mk_vcan None (echo_property properties) 0%nat).

(** The configuration of a freshly allocated interface (lines 164-167). *)
Definition configure_ifnet (ifp : I) : I :=
  let ifp := ifnet_set_mtu ifp CANFD_MTU in
  let ifp := ifnet_set_flags ifp (Z.lor IFF_BROADCAST (Z.lor IFF_SIMPLEX IFF_NOARP)) 0xffff in
  let ifp := ifnet_set_addrlen ifp 0 in
  ifnet_set_hdrlen ifp 0.

(** [create_interface] (lines 115-183) for the instance [self].  The slot
    is claimed under the lock; [ifnet_allocate] returns [alloc_result]
    and [ifnet_attach] returns [attach_result].  On an allocation failure
    [interface] is left as it was; on an attach failure it is released
    and set to NULL; both roll the slot back under the lock. *)
Definition create_interface (r : registry) (self : obj) (s : VirtualCANInterface I)
    (alloc_result attach_result : Z) : registry * VirtualCANInterface I * bool :=
  match acquire_slot r self with
  | None => (r, s, false)
  | Some (index, r1) =>
      let s1 := set_interface_index s index in
      let init_params := mk_init_params "vcan" (Z.of_nat index) IFT_OTHER self in
      if decide (alloc_result <> 0) then (release_slot r1 index, s1, false)
      else
        let ifp := configure_ifnet (ifnet_allocate init_params) in
        if decide (attach_result <> 0) then
          (release_slot r1 index, set_interface s1 None, false)
        else (r1, set_interface s1 (Some (ifnet_attach ifp)), true)
  end.

(** [destroy_interface] (lines 185-197): detach and release the interface
    and free the slot, only when there is an interface. *)
Definition destroy_interface (r : registry) (s : VirtualCANInterface I)
    : registry * VirtualCANInterface I :=
  match interface s with
  | Some _ => (release_slot r (interface_index s), set_interface s None)
  | None => (r, s)
  end.

(** [start] (lines 83-107): [super::start], the lazy allocation of the
    lock, then [create_interface]. *)
Definition start (g : statics) (self : obj) (s : VirtualCANInterface I)
    (super_start_ok lock_alloc_ok : bool) (alloc_result attach_result : Z)
    : statics * VirtualCANInterface I * bool :=
  if negb super_start_ok then (g, s, false)
  else if negb (interface_lock g) && negb lock_alloc_ok then (g, s, false)
  else
    let g1 := mk_statics (table g) true in
    let '(r, s', ok) := create_interface (table g1) self s alloc_result attach_result in
    (set_table g1 r, s', ok).

(** [stop] (lines 109-113). *)
Definition stop (g : statics) (s : VirtualCANInterface I) : statics * VirtualCANInterface I :=
  let '(r, s') := destroy_interface (table g) s in (set_table g r, s').

(** [free] (lines 75-81): destroy the interface if there is one. *)
Definition free (g : statics) (s : VirtualCANInterface I) : statics * VirtualCANInterface I :=
  match interface s with
  | Some _ => let '(r, s') := destroy_interface (table g) s in (set_table g r, s')
  | None => (g, s)
  end.

(** The instance and the slot table agree: an instance with an interface
    holds the slot [interface_index] and the interface carries its
    [softc] and unit; an instance without one holds no slot. *)
Definition instance_consistent (r : registry) (self : obj) (s : VirtualCANInterface I) : Prop :=
  match interface s with
  | Some ifp =>
      interfaces r !! interface_index s = Some (Some self) /\
      ifnet_softc ifp = self /\ ifnet_unit ifp = Z.of_nat (interface_index s)
  | None => ~ owns r self
  end.

End Lifecycle.

(** ** Theorems *)

(** A claim followed by the release of the claimed slot gives back the
    table it started from. *)
Lemma acquire_release_id r self i r1 :
  registry_wf r -> acquire_slot r self = Some (i, r1) -> release_slot r1 i = r.
Proof.
  intros Hwf Hacq. pose proof (registry_wf_count_bound r Hwf) as Hb.
  destruct (acquire_slot_Some_inv _ _ _ _ Hacq) as ((_&_&Hfree)&Hlt&Htbl&Hcnt).
  specialize (Hfree Hlt). destruct r as [tbl c]; simpl in *.
  unfold release_slot. rewrite Htbl, Hcnt, list_insert_insert_eq, list_insert_id by done.
  f_equal. unfold VCAN_MAX_INTERFACES in Hb.
  rewrite (u32_wrap_small (c + 1)), u32_wrap_small by (unfold in_uint; lia). lia.
Qed.

Section LifecycleTheorems.
Context {I : Type} `{!IfnetKPI I, !IfnetLaws I}.

(** The interface [create_interface] configures and attaches, as the
    stack sees it: named vcanN with N the slot, [softc] the instance, MTU
    [CANFD_MTU], flags IFF_BROADCAST|IFF_SIMPLEX|IFF_NOARP, no address or
    header, attached, no traffic yet. *)
Definition attached_view (index : nat) (self : obj) : ifnet_view :=
  mk_view "vcan" (Z.of_nat index) self CANFD_MTU
    (Z.lor IFF_BROADCAST (Z.lor IFF_SIMPLEX IFF_NOARP)) 0 0 true if_stats_zero [].

(** [create_interface] returns true exactly when the claim, the allocation
    and the attachment all succeed; the instance then holds the claimed
    slot and an interface in the configured, attached state. *)
Lemma create_interface_true_inv r self s alloc_result attach_result r' s' :
  create_interface r self s alloc_result attach_result = (r', s', true) ->
  exists index ifp,
    acquire_slot r self = Some (index, r') /\ alloc_result = 0 /\ attach_result = 0 /\
    interface s' = Some ifp /\ interface_index s' = index /\ echo_mode s' = echo_mode s /\
    ifnet_view_of ifp = attached_view index self.
Proof.
  unfold create_interface.
  destruct (acquire_slot r self) as [[index r1]|] eqn:Hacq; [|done].
  repeat case_decide; intros; simplify_eq.
  do 2 eexists. split_and!; try (done || lia).
  unfold configure_ifnet. rewrite view_ifnet_attach, view_ifnet_set_hdrlen, view_ifnet_set_addrlen, view_ifnet_set_flags, view_ifnet_set_mtu, view_ifnet_allocate. reflexivity.
Qed.

(** The result of [create_interface] is true exactly when the claim finds
    a slot and both KPI calls return 0. *)
Lemma create_interface_ok_iff r self s alloc_result attach_result :
  (create_interface r self s alloc_result attach_result).2 = true <->
  is_Some (acquire_slot r self) /\ alloc_result = 0 /\ attach_result = 0.
Proof.
  unfold create_interface.
  destruct (acquire_slot r self) as [[index r1]|]; [|naive_solver].
  repeat case_decide; simpl; naive_solver.
Qed.

(** C11. [create_interface] returns true if and only if the claim finds a
    slot and [ifnet_allocate] and [ifnet_attach] both return 0; when it
    returns true the instance holds the claimed slot and an interface in
    the configured, attached state. *)
Theorem create_interface_attached r self s alloc_result attach_result r' s' ok :
  create_interface r self s alloc_result attach_result = (r', s', ok) ->
  (ok = true <-> is_Some (acquire_slot r self) /\ alloc_result = 0 /\ attach_result = 0) /\
  (ok = true ->
   exists index ifp,
     acquire_slot r self = Some (index, r') /\
     interface s' = Some ifp /\ interface_index s' = index /\ echo_mode s' = echo_mode s /\
     ifnet_view_of ifp = attached_view index self).
Proof.
  intros Hc. split.
  - rewrite <- (create_interface_ok_iff r self s), Hc. done.
  - intros ->. apply create_interface_true_inv in Hc as (index&ifp&?&?&?&?&?&?&?). eauto 10.
Qed.

(** Every failure of [create_interface] leaves the slot table exactly as
    it was, and an instance that had no interface still has none. *)
Lemma create_interface_false_inv r self s alloc_result attach_result r' s' :
  registry_wf r ->
  create_interface r self s alloc_result attach_result = (r', s', false) ->
  r' = r /\ echo_mode s' = echo_mode s /\ (interface s = None -> interface s' = None).
Proof.
  intros Hwf. unfold create_interface.
  destruct (acquire_slot r self) as [[index r1]|] eqn:Hacq; [|by intros; simplify_eq].
  repeat case_decide; intros; simplify_eq; split_and!;
    try (by eapply acquire_release_id); done.
Qed.

(** C6. Every failure of [create_interface] leaves the slot table exactly as
    it was, and an instance that had no interface still has none. *)
Theorem create_interface_failed_no_trace r self s alloc_result attach_result r' s' :
  registry_wf r ->
  create_interface r self s alloc_result attach_result = (r', s', false) ->
  r' = r /\ echo_mode s' = echo_mode s /\ (interface s = None -> interface s' = None).
Proof. apply create_interface_false_inv. Qed.

(** C7. [destroy_interface] gives the slot back whenever the instance holds
    one, keeps the table well formed, and leaves the instance without an
    interface and without a slot. *)
Theorem destroy_interface_releases r self s :
  registry_wf r -> instance_consistent r self s ->
  registry_wf (destroy_interface r s).1 /\ interface (destroy_interface r s).2 = None /\
  ~ owns (destroy_interface r s).1 self /\
  interface_count (destroy_interface r s).1 =
    interface_count r - (match interface s with Some _ => 1 | None => 0 end).
Proof.
  intros Hwf Hcons. unfold destroy_interface, instance_consistent in *.
  destruct (interface s) as [ifp|] eqn:Hifp; simpl.
  - destruct Hcons as (Hslot&_&_).
    destruct (release_slot_keeps_wf _ _ _ Hwf Hslot) as (?&?&?). split_and!; done.
  - split_and!; done || lia.
Qed.

(** C30. [free] after [stop] does nothing: the second [destroy_interface]
    finds no interface. *)
Theorem free_after_stop g (s : VirtualCANInterface I) : free (stop g s).1 (stop g s).2 = stop g s.
Proof.
  unfold free, stop, destroy_interface. destruct (interface s) eqn:E; simpl; [done|].
  by rewrite E.
Qed.

(** [create_interface] on an instance without an interface keeps the
    table well formed and the instance consistent with it, and reports
    success exactly when the instance now has an interface. *)
Lemma create_interface_keeps_consistent r self s alloc_result attach_result r' s' ok :
  registry_wf r -> interface s = None -> ~ owns r self ->
  create_interface r self s alloc_result attach_result = (r', s', ok) ->
  registry_wf r' /\ instance_consistent r' self s' /\ (ok = true <-> is_Some (interface s')).
Proof.
  intros Hwf Hnone Hnot Hcreate. destruct ok.
  - destruct (create_interface_true_inv _ _ _ _ _ _ _ Hcreate)
      as (index&ifp&Hacq&_&_&Hifp&Hidx&_&Hview).
    destruct (acquire_slot_keeps_wf _ _ _ _ Hwf Hnot Hacq) as (Hwf'&_&_&Hslot).
    unfold instance_consistent. rewrite Hifp, Hidx, ifnet_softc_view, ifnet_unit_view, Hview.
    split_and!; try done; by eexists.
  - destruct (create_interface_false_inv _ _ _ _ _ _ _ Hwf Hcreate) as (->&_&Hs').
    unfold instance_consistent. rewrite (Hs' Hnone). split_and!; try done; by intros [? ?].
Qed.

(** C29. [create_interface] on an instance without an interface keeps the
    table well formed and the instance consistent with it, and reports
    success exactly when the instance now has an interface. *)
Theorem create_interface_consistent r self s alloc_result attach_result r' s' ok :
  registry_wf r -> interface s = None -> ~ owns r self ->
  create_interface r self s alloc_result attach_result = (r', s', ok) ->
  registry_wf r' /\ instance_consistent r' self s' /\ (ok = true <-> is_Some (interface s')).
Proof. apply create_interface_keeps_consistent. Qed.

End LifecycleTheorems.

(** ** Witnesses with the concrete stack [ViewIfnet] *)

(** A fresh instance created with echo mode on. *)
Definition demo_fresh : VirtualCANInterface ifnet_view := mk_vcan None true 0%nat.

(** Instance 3 holds slot 0; instance 7 gets slot 1, and start succeeds. *)
Definition demo_table : registry := mk_registry (<[0%nat := Some 3%nat]> (interfaces registry_init)) 1.

Lemma create_interface_attached_witness :
  (true = true <-> is_Some (acquire_slot demo_table 7) /\ (0:Z) = 0 /\ (0:Z) = 0) /\
  (true = true ->
   exists index ifp,
     acquire_slot demo_table 7 = Some (index, (create_interface demo_table 7 demo_fresh 0 0).1.1) /\
     interface (create_interface demo_table 7 demo_fresh 0 0).1.2 = Some ifp /\
     interface_index (create_interface demo_table 7 demo_fresh 0 0).1.2 = index /\
     echo_mode (create_interface demo_table 7 demo_fresh 0 0).1.2 = echo_mode demo_fresh /\
     ifnet_view_of ifp = attached_view index 7).
Proof.
  apply (create_interface_attached demo_table 7 demo_fresh 0 0
           (create_interface demo_table 7 demo_fresh 0 0).1.1
           (create_interface demo_table 7 demo_fresh 0 0).1.2 true).
  reflexivity.
Defined.

(** [ifnet_allocate] fails with ENOMEM: the table is as before. *)
Lemma create_interface_failed_no_trace_witness :
  fst (fst (create_interface registry_init 7 demo_fresh ENOMEM 0)) = registry_init /\
  echo_mode (snd (fst (create_interface registry_init 7 demo_fresh ENOMEM 0))) = echo_mode demo_fresh /\
  (interface demo_fresh = None ->
   interface (snd (fst (create_interface registry_init 7 demo_fresh ENOMEM 0))) = None).
Proof.
  apply (create_interface_failed_no_trace registry_init 7 demo_fresh ENOMEM 0);
    [apply registry_init_wf|reflexivity].
Defined.

(** The instance 7 after a successful start from the initial table. *)
Definition demo_started : registry * VirtualCANInterface ifnet_view :=
  let '(r, s, _) := create_interface registry_init 7 demo_fresh 0 0 in (r, s).

Lemma demo_started_wf : registry_wf demo_started.1.
Proof.
  destruct (acquire_slot_keeps_wf registry_init 7 0 demo_started.1) as [? _];
    [apply registry_init_wf|apply registry_init_not_owns|reflexivity|done].
Qed.

Lemma destroy_interface_releases_witness :
  registry_wf (destroy_interface demo_started.1 demo_started.2).1 /\
  interface (destroy_interface demo_started.1 demo_started.2).2 = None /\
  ~ owns (destroy_interface demo_started.1 demo_started.2).1 7 /\
  interface_count (destroy_interface demo_started.1 demo_started.2).1 =
    interface_count demo_started.1 -
    (match interface demo_started.2 with Some _ => 1 | None => 0 end).
Proof.
  apply destroy_interface_releases; [apply demo_started_wf|].
  unfold instance_consistent. simpl. split_and!; reflexivity.
Defined.

Lemma create_interface_consistent_witness :
  registry_wf demo_started.1 /\ instance_consistent demo_started.1 7 demo_started.2 /\
  (true = true <-> is_Some (interface demo_started.2)).
Proof.
  apply (create_interface_consistent registry_init 7 demo_fresh 0 0);
    [apply registry_init_wf|reflexivity|apply registry_init_not_owns|reflexivity].
Defined.
