(* ===== verification/Pipeline.v ===== *)
(** * The transmit and receive paths

    [vcan_output] (lines 199-206) recovers the instance from the
    interface's [softc] and calls [output_handler] (lines 208-255), which
    counts the packet as sent, tests [MBUF_LOOP], and then either counts it
    as received without delivering it (no echo mode) or hands a duplicate
    to [input_handler] (lines 257-279), which counts it as received, tags
    it with the interface and passes it up with [ifnet_input].

    A NULL [mbuf_t] is [None]; whether [mbuf_dup(..., MBUF_DONTWAIT, ...)]
    succeeds is the input [dup_result] (its errno).  The statistics are
    those of the interface the instance holds; the handlers only run while
    it holds one (the stack calls them on an attached interface), and on
    an instance without one they change nothing.

    The theorems give the exact effect of both handlers on the counters
    and on the packets passed up, on every branch ([output_handler_spec],
    [input_handler_spec]); the result of a transmission: EINVAL for a
    NULL packet, 0 for any other, a failed duplication included
    ([output_handler_ok]); and the counters after any sequence of
    transmissions ([transmit_all], [transmit_all_counters]): packets and
    bytes add up modulo 2^64, each length truncated to [u_int32_t]. *)

From S2P Require Import Prelude Frame Registry Ifnet Instance.
From coqutil Require Import Byte.

Import Registry.
Open Scope Z_scope.
Open Scope vcan_scope.

Section Pipeline.
Context {I : Type} `{!IfnetKPI I}.

(** [ifnet_stat_increment(interface, &stats)] on the instance's member
    [interface]. *)
Definition stat_increment (s : VirtualCANInterface I) (p : ifnet_stat_increment_param)
    : VirtualCANInterface I :=
  match interface s with
  | Some ifp => set_interface s (Some (ifnet_stat_increment ifp p))
  | None => s
  end.

(** [mbuf_flags(packet) & MBUF_LOOP] (lines 227-229). *)
Definition should_loop (m : mbuf) : bool :=
  negb (Z.land (mbuf_flags m) MBUF_LOOP =? 0).

(** [input_handler] (lines 257-279). *)
Definition input_handler (s : VirtualCANInterface I) (packet : option mbuf)
    : VirtualCANInterface I :=
  match packet with
  | None => s
  | Some m =>
      let packet_len := mbuf_pkthdr_len m in
      let s := stat_increment s (mk_stat_param 1 (u32_wrap packet_len) 0 0) in
      match interface s with
      | Some ifp =>
          let m := mbuf_pkthdr_setrcvif m (ifnet_unit ifp) in
          set_interface s (Some (ifnet_input ifp m))
      | None => s
      end
  end.

(** [output_handler] (lines 208-255); the result is the new instance and
    the errno returned to the stack. *)
Definition output_handler (s : VirtualCANInterface I) (packet : option mbuf) (dup_result : Z)
    : VirtualCANInterface I * Z :=
  match packet with
  | None => (s, EINVAL)
  | Some m =>
      let packet_len := mbuf_pkthdr_len m in
      let s := stat_increment s (mk_stat_param 0 0 1 (u32_wrap packet_len)) in
      if negb (echo_mode s) then
        let s := if should_loop m
                 then stat_increment s (mk_stat_param 1 (u32_wrap packet_len) 0 0)
                 else s in
        (s, 0)
      else
        let s := if should_loop m
                 then if decide (dup_result = 0) then input_handler s (Some (mbuf_dup_copy m)) else s
                 else s in
        (s, 0)
  end.

(** [vcan_output] (lines 199-206): the instances by object, the interface
    the stack transmits on, the packet. *)
Definition vcan_output (insts : gmap obj (VirtualCANInterface I)) (ifp : I)
    (packet : option mbuf) (dup_result : Z) : gmap obj (VirtualCANInterface I) * Z :=
  match insts !! ifnet_softc ifp with
  | Some self =>
      let '(self', err) := output_handler self packet dup_result in
      (<[ifnet_softc ifp := self']> insts, err)
  | None => (insts, EINVAL)
  end.

(** A sequence of transmissions on the instance, each packet with the
    outcome of its [mbuf_dup]. *)
Fixpoint transmit_all (s : VirtualCANInterface I) (ps : list (mbuf * Z)) : VirtualCANInterface I :=
  match ps with
  | [] => s
  | (m, dup_result) :: ps' => transmit_all (output_handler s (Some m) dup_result).1 ps'
  end.

End Pipeline.

(** The bytes a sequence of transmissions counts: each packet length
    converted to [u_int32_t] (lines 223, 236, 271). *)
Definition sent_bytes (ps : list (mbuf * Z)) : Z :=
  foldr (fun p acc => u32_wrap (mbuf_pkthdr_len p.1) + acc) 0 ps.

(** ** The contract of the two paths *)

(** What one transmission does to the interface, as the stack sees it:
    the packet is counted as sent; a looped-back packet is also counted as
    received, unless echo mode is on and the duplication fails; it is
    passed up, tagged with the interface, only in echo mode with a
    successful duplication.  Nothing else of the interface changes. *)
Definition expected_output_view (echo : bool) (dup_result : Z) (v : ifnet_view) (m : mbuf)
    : ifnet_view :=
  let len := u32_wrap (mbuf_pkthdr_len m) in
  let st := v_stats v in
  let counted := should_loop m && (negb echo || bool_decide (dup_result = 0)) in
  let delivered := should_loop m && echo && bool_decide (dup_result = 0) in
  mk_view (v_name v) (v_unit v) (v_softc v) (v_mtu v) (v_flags v) (v_addrlen v)
    (v_hdrlen v) (v_attached v)
    (mk_if_stats (if counted then ipackets st +u64 1 else ipackets st)
                 (if counted then ibytes st +u64 len else ibytes st)
                 (opackets st +u64 1) (obytes st +u64 len))
    (v_delivered v ++ if delivered then [mbuf_pkthdr_setrcvif m (v_unit v)] else []).

(** What one reception does: counted as received and passed up. *)
Definition expected_input_view (v : ifnet_view) (m : mbuf) : ifnet_view :=
  let st := v_stats v in
  mk_view (v_name v) (v_unit v) (v_softc v) (v_mtu v) (v_flags v) (v_addrlen v)
    (v_hdrlen v) (v_attached v)
    (mk_if_stats (ipackets st +u64 1) (ibytes st +u64 u32_wrap (mbuf_pkthdr_len m))
                 (opackets st) (obytes st))
    (v_delivered v ++ [mbuf_pkthdr_setrcvif m (v_unit v)]).

Lemma expected_output_stats_wf e d v m :
  stats_wf (v_stats v) -> stats_wf (v_stats (expected_output_view e d v m)).
Proof.
  intros (?&?&?&?). unfold expected_output_view. simpl.
  case_match; split_and!; simpl; done || apply u64_wrap_range.
Qed.


Section PipelineTheorems.
Context {I : Type} `{!IfnetKPI I, !IfnetLaws I}.

(** Rewrite the stack's observation of a chain of KPI calls. *)
Ltac view_laws :=
  repeat first [ rewrite view_ifnet_stat_increment | rewrite view_ifnet_input
               | rewrite ifnet_unit_view ].

Lemma stat_increment_some (s : VirtualCANInterface I) ifp p :
  interface s = Some ifp ->
  stat_increment s p = set_interface s (Some (ifnet_stat_increment ifp p)).
Proof. unfold stat_increment. by intros ->. Qed.

(** C21. [input_handler] on a packet: counted as received, tagged with the
    interface's unit, passed up; the rest of the instance unchanged. *)
Theorem input_handler_spec (s : VirtualCANInterface I) ifp m :
  interface s = Some ifp -> stats_wf (v_stats (ifnet_view_of ifp)) ->
  exists ifp', input_handler s (Some m) = set_interface s (Some ifp') /\
    ifnet_view_of ifp' = expected_input_view (ifnet_view_of ifp) m.
Proof.
  intros Hifp Hwf. unfold input_handler. rewrite (stat_increment_some _ _ _ Hifp).
  simpl. eexists. split; [done|]. view_laws.
  unfold expected_input_view, view_input, view_stat_increment. simpl.
  by rewrite stats_add_in.
Qed.

(** [output_handler] on a packet returns 0 and changes the interface
    exactly as [expected_output_view] says, on each of its branches
    (echo or not, looped or not, duplication failed or not). *)
Lemma output_handler_view (s : VirtualCANInterface I) ifp m dup_result :
  interface s = Some ifp -> stats_wf (v_stats (ifnet_view_of ifp)) ->
  exists ifp', output_handler s (Some m) dup_result = (set_interface s (Some ifp'), 0) /\
    ifnet_view_of ifp' = expected_output_view (echo_mode s) dup_result (ifnet_view_of ifp) m.
Proof.
  intros Hifp Hwf. unfold output_handler, expected_output_view.
  rewrite (stat_increment_some _ _ _ Hifp). simpl.
  destruct (echo_mode s), (should_loop m), (decide (dup_result = 0)) as [Hd|Hd];
    rewrite ?bool_decide_true, ?bool_decide_false by done; simpl;
    (eexists; split; [reflexivity|]); view_laws;
    unfold view_input, view_stat_increment, mbuf_dup_copy; simpl;
    rewrite ?stats_add_out_in, ?stats_add_out by done; simpl; rewrite ?app_nil_r; done.
Qed.

(** C9. [output_handler] on a packet returns 0 and changes the interface
    exactly as [expected_output_view] says, on each of its branches
    (echo or not, looped or not, duplication failed or not). *)
Theorem output_handler_spec (s : VirtualCANInterface I) ifp m dup_result :
  interface s = Some ifp -> stats_wf (v_stats (ifnet_view_of ifp)) ->
  exists ifp', output_handler s (Some m) dup_result = (set_interface s (Some ifp'), 0) /\
    ifnet_view_of ifp' = expected_output_view (echo_mode s) dup_result (ifnet_view_of ifp) m.
Proof. apply output_handler_view. Qed.

(** C20. The result of a transmission: a NULL packet is refused with
    EINVAL and changes nothing; every other packet is accepted with 0,
    including when the duplication fails in echo mode (the failure is
    absorbed). *)
Theorem output_handler_ok (s : VirtualCANInterface I) packet dup_result :
  (output_handler s packet dup_result).2 = (if packet is Some _ then 0 else EINVAL) /\
  (packet = None -> (output_handler s packet dup_result).1 = s).
Proof.
  destruct packet as [m|]; [|done]. split; [|done].
  unfold output_handler. simpl.
  destruct (echo_mode _), (should_loop m), (decide (dup_result = 0)); done.
Qed.

(** C19. After any sequence of transmissions on an instance with an
    interface, whatever the echo mode and the outcomes of [mbuf_dup], the
    sent-packet counter has grown by the number of packets and the
    sent-byte counter by the sum of the packet lengths each converted to
    [u_int32_t], both modulo 2^64: a packet of 2^32 bytes or more is
    counted by its length modulo 2^32. *)
Theorem transmit_all_counters (s : VirtualCANInterface I) ifp ps :
  interface s = Some ifp -> stats_wf (v_stats (ifnet_view_of ifp)) ->
  exists ifp', interface (transmit_all s ps) = Some ifp' /\
    stats_wf (v_stats (ifnet_view_of ifp')) /\
    opackets (v_stats (ifnet_view_of ifp')) =
      u64_wrap (opackets (v_stats (ifnet_view_of ifp)) + Z.of_nat (length ps)) /\
    obytes (v_stats (ifnet_view_of ifp')) =
      u64_wrap (obytes (v_stats (ifnet_view_of ifp)) + sent_bytes ps).
Proof.
  revert s ifp. induction ps as [|[m d] ps IH]; intros s ifp Hifp Hwf; cbn [transmit_all].
  - exists ifp. pose proof Hwf as (_&_&Ho&Hb).
    split_and!; [done|done| |]; cbn; rewrite Z.add_0_r, u64_wrap_small; done.
  - destruct (output_handler_view s ifp m d Hifp Hwf) as (ifp1&->&Hv1). simpl.
    assert (Hwf1 : stats_wf (v_stats (ifnet_view_of ifp1))) by (rewrite Hv1; by apply expected_output_stats_wf).
    destruct (IH (set_interface s (Some ifp1)) ifp1 eq_refl Hwf1) as (ifp'&Hi'&Hwf'&Hp'&Hb'). exists ifp'. cbn [fst].
    rewrite Hp', Hb', Hv1. unfold sent_bytes. cbn. unfold u64_wrap, sent_bytes.
    rewrite !wrap_add_wrap_l. split_and!; [done|done|f_equal; lia|f_equal; lia].
Qed.
End PipelineTheorems.

(** ** Witnesses with the concrete stack [ViewIfnet] *)

(** An attached interface of unit 0 owned by instance 7. *)
Definition demo_ifp : ifnet_view := attached_view 0 7.

(** An 8-byte packet the stack wants looped back. *)
Definition demo_packet : mbuf :=
  mk_mbuf 8 MBUF_LOOP [Byte.x01; Byte.x02; Byte.x03; Byte.x04; Byte.x05; Byte.x06; Byte.x07; Byte.x08] None.

(** Echo mode, duplication succeeds: the duplicate is passed up. *)
Lemma output_handler_spec_witness :
  exists ifp', output_handler (mk_vcan (Some demo_ifp) true 0%nat) (Some demo_packet) 0 =
               (set_interface (mk_vcan (Some demo_ifp) true 0%nat) (Some ifp'), 0) /\
    ifnet_view_of ifp' = expected_output_view true 0 (ifnet_view_of demo_ifp) demo_packet.
Proof. apply output_handler_spec; [reflexivity|apply stats_zero_wf]. Defined.

Lemma input_handler_spec_witness :
  exists ifp', input_handler (mk_vcan (Some demo_ifp) false 0%nat) (Some demo_packet) =
               set_interface (mk_vcan (Some demo_ifp) false 0%nat) (Some ifp') /\
    ifnet_view_of ifp' = expected_input_view (ifnet_view_of demo_ifp) demo_packet.
Proof. apply input_handler_spec; [reflexivity|apply stats_zero_wf]. Defined.

Lemma transmit_all_counters_witness :
  exists ifp', interface (transmit_all (mk_vcan (Some demo_ifp) true 0%nat)
                          [(demo_packet, 0); (demo_packet, 12)]) = Some ifp' /\
    stats_wf (v_stats (ifnet_view_of ifp')) /\
    opackets (v_stats (ifnet_view_of ifp')) =
      u64_wrap (opackets (v_stats (ifnet_view_of demo_ifp)) + Z.of_nat 2) /\
    obytes (v_stats (ifnet_view_of ifp')) =
      u64_wrap (obytes (v_stats (ifnet_view_of demo_ifp)) +
                sent_bytes [(demo_packet, 0); (demo_packet, 12)]).
Proof. apply transmit_all_counters; [reflexivity|apply stats_zero_wf]. Defined.

