(* ===== verification/Ioctl.v ===== *)
(** * The control path: MTU get and set

    [vcan_ioctl] (lines 281-288) recovers the instance from the
    interface's [softc] and calls [ioctl_handler] (lines 290-328).  The
    handler answers SIOCGIFMTU with the interface's MTU converted to
    [int], and accepts SIOCSIFMTU only for [CAN_MTU], [CANFD_MTU] or a
    value in [CANXL_MIN_MTU .. CANXL_MAX_MTU], and only while the
    interface is down; every other command is EOPNOTSUPP.

    [ioctl_handler] works on the member [interface], which is the
    interface the stack passed to [vcan_ioctl] (its [softc] is the
    instance), so the handler is modelled on that interface.  The
    [struct ifreq] is reduced to its [ifr_mtu] field, an [int].

    The theorems: each branch of the handler (get, set refused as
    invalid, set refused as busy, set accepted, unsupported command)
    with what it changes and what it leaves; the legal-MTU test against
    its three ranges; an interface whose MTU is legal keeps a legal MTU,
    and a get then returns it unchanged through the [int] conversion;
    and the order of the two checks: an illegal value is refused with
    EINVAL even while the interface is up. *)

From S2P Require Import Prelude Frame Registry Ifnet Instance.

Import Registry.
Open Scope Z_scope.
Open Scope vcan_scope.

(** <sys/sockio.h>: [_IOWR('i', 51, struct ifreq)] and
    [_IOW('i', 52, struct ifreq)]. *)
Definition SIOCGIFMTU : Z := 0xc0206933.
Definition SIOCSIFMTU : Z := 0x80206934.

(** The [int] a [u_int32_t] converts to (two's complement). *)
Definition int_of_u32 (z : Z) : Z := if decide (z < 2 ^ 31) then z else z - 2 ^ 32.

(** [struct ifreq], its [ifr_mtu] member. *)
Record ifreq := mk_ifreq { ifr_mtu : Z }.

Section Ioctl.
Context {I : Type} `{!IfnetKPI I}.

(** The refusal test of lines 305-306: not CAN, not CAN FD, and outside
    the CAN XL range. *)
Definition mtu_invalid (new_mtu : Z) : bool :=
  bool_decide (new_mtu <> CAN_MTU) && bool_decide (new_mtu <> CANFD_MTU) &&
  (bool_decide (new_mtu < CANXL_MIN_MTU) || bool_decide (new_mtu > CANXL_MAX_MTU)).

(** [ioctl_handler] (lines 290-328) on the instance's interface: the new
    interface, the [ifreq] written back, the errno. *)
Definition ioctl_handler (ifp : I) (command : Z) (ifr : ifreq) : I * ifreq * Z :=
  if decide (command = SIOCGIFMTU \/ command = SIOCSIFMTU) then
    if decide (command = SIOCGIFMTU) then
      (ifp, mk_ifreq (int_of_u32 (ifnet_mtu ifp)), 0)
    else
      let new_mtu := ifr_mtu ifr in
      if mtu_invalid new_mtu then (ifp, ifr, EINVAL)
      else if negb (Z.land (ifnet_flags ifp) IFF_UP =? 0) then (ifp, ifr, EBUSY)
      else (ifnet_set_mtu ifp (u32_wrap new_mtu), ifr, 0)
  else (ifp, ifr, EOPNOTSUPP).

(** [vcan_ioctl] (lines 281-288): dispatch through [softc]. *)
Definition vcan_ioctl (insts : gmap obj (VirtualCANInterface I)) (ifp : I) (command : Z)
    (ifr : ifreq) : gmap obj (VirtualCANInterface I) * ifreq * Z :=
  match insts !! ifnet_softc ifp with
  | Some self =>
      let '(ifp', ifr', err) := ioctl_handler ifp command ifr in
      (<[ifnet_softc ifp := set_interface self (Some ifp')]> insts, ifr', err)
  | None => (insts, ifr, EINVAL)
  end.

End Ioctl.

(** The MTUs the driver accepts. *)
Definition mtu_legal (mtu : Z) : Prop :=
  mtu = CAN_MTU \/ mtu = CANFD_MTU \/ CANXL_MIN_MTU <= mtu <= CANXL_MAX_MTU.

(** The interface is administratively up. *)
Definition if_up {I} `{!IfnetKPI I} (ifp : I) : Prop := Z.land (ifnet_flags ifp) IFF_UP <> 0.

(** ** Theorems *)

(** The refusal test of the code refuses exactly the values outside the
    three legal ranges. *)
Lemma mtu_invalid_iff_legal n : mtu_invalid n = false <-> mtu_legal n.
Proof.
  unfold mtu_invalid, mtu_legal, CAN_MTU, CANFD_MTU, CANXL_MIN_MTU, CANXL_MAX_MTU.
  repeat case_bool_decide; simpl; split; intros; try done; lia.
Qed.

(** C24. The refusal test of the code refuses exactly the values outside the
    three legal ranges. *)
Theorem mtu_invalid_spec n : mtu_invalid n = false <-> mtu_legal n.
Proof. apply mtu_invalid_iff_legal. Qed.

(** A legal MTU fits an [int] and a [u_int32_t] unchanged. *)
Lemma mtu_legal_bounds n : mtu_legal n -> 0 < n < 2 ^ 31.
Proof. unfold mtu_legal, CAN_MTU, CANFD_MTU, CANXL_MIN_MTU, CANXL_MAX_MTU. lia. Qed.

Lemma int_of_u32_small n : 0 <= n < 2 ^ 31 -> int_of_u32 n = n.
Proof. intros. unfold int_of_u32. by rewrite decide_True by lia. Qed.

Lemma u32_wrap_legal n : mtu_legal n -> u32_wrap n = n.
Proof. intros Hn%mtu_legal_bounds. apply u32_wrap_small. unfold in_uint. lia. Qed.

Section IoctlTheorems.
Context {I : Type} `{!IfnetKPI I, !IfnetLaws I}.

(** SIOCSIFMTU, on each branch: an illegal value is refused with EINVAL
    whatever the state of the interface (the value is checked first); a
    legal value is refused with EBUSY while the interface is up; otherwise
    the MTU becomes the value and nothing else changes. *)
Lemma ioctl_set_mtu_cases (ifp : I) ifr :
  let '(ifp', ifr', err) := ioctl_handler ifp SIOCSIFMTU ifr in
  ifr' = ifr /\
  (~ mtu_legal (ifr_mtu ifr) -> err = EINVAL /\ ifp' = ifp) /\
  (mtu_legal (ifr_mtu ifr) -> if_up ifp -> err = EBUSY /\ ifp' = ifp) /\
  (mtu_legal (ifr_mtu ifr) -> ~ if_up ifp ->
     err = 0 /\ ifnet_view_of ifp' = view_set_mtu (ifnet_view_of ifp) (ifr_mtu ifr)).
Proof.
  unfold ioctl_handler, if_up.
  rewrite decide_True by (right; done). rewrite decide_False by (unfold SIOCSIFMTU, SIOCGIFMTU; lia).
  destruct (mtu_invalid (ifr_mtu ifr)) eqn:Hinv.
  - split_and!; try done; intros Hl; rewrite (proj2 (mtu_invalid_iff_legal _) Hl) in Hinv; done.
  - pose proof (proj1 (mtu_invalid_iff_legal _) Hinv) as Hl.
    destruct (Z.land (ifnet_flags ifp) IFF_UP =? 0) eqn:Hup; simpl; bool_to_prop;
      split_and!; try done.
    intros _ _. split; [done|]. by rewrite view_ifnet_set_mtu, u32_wrap_legal.
Qed.

(** C10. SIOCSIFMTU, on each branch: an illegal value is refused with EINVAL
    whatever the state of the interface (the value is checked first); a
    legal value is refused with EBUSY while the interface is up; otherwise
    the MTU becomes the value and nothing else changes. *)
Theorem ioctl_set_mtu_spec (ifp : I) ifr :
  let '(ifp', ifr', err) := ioctl_handler ifp SIOCSIFMTU ifr in
  ifr' = ifr /\
  (~ mtu_legal (ifr_mtu ifr) -> err = EINVAL /\ ifp' = ifp) /\
  (mtu_legal (ifr_mtu ifr) -> if_up ifp -> err = EBUSY /\ ifp' = ifp) /\
  (mtu_legal (ifr_mtu ifr) -> ~ if_up ifp ->
     err = 0 /\ ifnet_view_of ifp' = view_set_mtu (ifnet_view_of ifp) (ifr_mtu ifr)).
Proof. apply ioctl_set_mtu_cases. Qed.

(** SIOCGIFMTU on an interface with a legal MTU returns that MTU, through
    the [int] conversion unchanged, and changes nothing. *)
Lemma ioctl_get_mtu_legal (ifp : I) ifr :
  mtu_legal (ifnet_mtu ifp) ->
  ioctl_handler ifp SIOCGIFMTU ifr = (ifp, mk_ifreq (ifnet_mtu ifp), 0).
Proof.
  intros Hl. unfold ioctl_handler.
  rewrite decide_True by (left; done). rewrite decide_True by done.
  rewrite int_of_u32_small; [done|]. apply mtu_legal_bounds in Hl. lia.
Qed.

(** C25. SIOCGIFMTU on an interface with a legal MTU returns that MTU, through
    the [int] conversion unchanged, and changes nothing. *)
Theorem ioctl_get_mtu (ifp : I) ifr :
  mtu_legal (ifnet_mtu ifp) ->
  ioctl_handler ifp SIOCGIFMTU ifr = (ifp, mk_ifreq (ifnet_mtu ifp), 0).
Proof. apply ioctl_get_mtu_legal. Qed.

(** C28. Every other command is refused with EOPNOTSUPP and changes nothing. *)
Theorem ioctl_unsupported (ifp : I) command ifr :
  command <> SIOCGIFMTU -> command <> SIOCSIFMTU ->
  ioctl_handler ifp command ifr = (ifp, ifr, EOPNOTSUPP).
Proof. intros. unfold ioctl_handler. rewrite decide_False; [done|]. intros [|]; done. Qed.

(** Whatever the command, an interface with a legal MTU keeps a legal
    MTU. *)
Lemma ioctl_keeps_legal_mtu (ifp : I) command ifr :
  mtu_legal (ifnet_mtu ifp) -> mtu_legal (ifnet_mtu (ioctl_handler ifp command ifr).1.1).
Proof.
  intros Hl. unfold ioctl_handler.
  repeat (case_decide || case_match); simplify_eq/=; try done.
  rewrite ifnet_mtu_view, view_ifnet_set_mtu. simpl.
  bool_to_prop. rewrite u32_wrap_small, u32_wrap_small; [by apply mtu_invalid_iff_legal| |];
    apply mtu_invalid_iff_legal, mtu_legal_bounds in H1; unfold in_uint; try lia.
  rewrite u32_wrap_small; unfold in_uint; lia.
Qed.

(** C26. Whatever the command, an interface with a legal MTU keeps a legal
    MTU. *)
Theorem ioctl_preserves_legal_mtu (ifp : I) command ifr :
  mtu_legal (ifnet_mtu ifp) -> mtu_legal (ifnet_mtu (ioctl_handler ifp command ifr).1.1).
Proof. apply ioctl_keeps_legal_mtu. Qed.

(** C27. Setting a legal MTU while the interface is down, then reading it,
    returns the value set. *)
Theorem ioctl_set_then_get (ifp : I) ifr ifr2 :
  mtu_legal (ifr_mtu ifr) -> ~ if_up ifp ->
  let '(ifp', _, err) := ioctl_handler ifp SIOCSIFMTU ifr in
  err = 0 /\ ioctl_handler ifp' SIOCGIFMTU ifr2 = (ifp', ifr, 0).
Proof.
  intros Hl Hdown. pose proof (ioctl_set_mtu_cases ifp ifr) as Hset.
  destruct (ioctl_handler ifp SIOCSIFMTU ifr) as [[ifp' ifr'] err].
  destruct Hset as (->&_&_&Hok). destruct (Hok Hl Hdown) as [-> Hv].
  split; [done|]. rewrite ioctl_get_mtu_legal.
  - rewrite ifnet_mtu_view, Hv. simpl. rewrite u32_wrap_legal by done. by destruct ifr.
  - rewrite ifnet_mtu_view, Hv. simpl. by rewrite u32_wrap_legal.
Qed.

End IoctlTheorems.

(** ** Witnesses with the concrete stack [ViewIfnet] *)

(** The attached interface of unit 0 owned by instance 7: MTU 72, down. *)
Definition demo_ioctl_ifp : ifnet_view := attached_view 0 7.

Lemma ioctl_get_mtu_witness :
  ioctl_handler demo_ioctl_ifp SIOCGIFMTU (mk_ifreq 0) =
  (demo_ioctl_ifp, mk_ifreq (ifnet_mtu demo_ioctl_ifp), 0).
Proof. apply ioctl_get_mtu. right; left. reflexivity. Defined.

Lemma ioctl_unsupported_witness :
  ioctl_handler demo_ioctl_ifp 0x8020690c (mk_ifreq 0) = (demo_ioctl_ifp, mk_ifreq 0, EOPNOTSUPP).
Proof. apply ioctl_unsupported; unfold SIOCGIFMTU, SIOCSIFMTU; lia. Defined.

Lemma ioctl_preserves_legal_mtu_witness :
  mtu_legal (ifnet_mtu (ioctl_handler demo_ioctl_ifp SIOCSIFMTU (mk_ifreq 9000)).1.1).
Proof. apply ioctl_preserves_legal_mtu. right; left. reflexivity. Defined.

(** Scenario C of the spec: MTU 16 set while down, then read back. *)
Lemma ioctl_set_then_get_witness :
  let '(ifp', _, err) := ioctl_handler demo_ioctl_ifp SIOCSIFMTU (mk_ifreq 16) in
  err = 0 /\ ioctl_handler ifp' SIOCGIFMTU (mk_ifreq 0) = (ifp', mk_ifreq 16, 0).
Proof.
  apply ioctl_set_then_get; [left; reflexivity|].
  unfold if_up. simpl. vm_compute. congruence.
Defined.

(** SIOCSIFMTU with the CAN MTU on the interface of unit 0, which is down. *)
Lemma ioctl_set_mtu_spec_witness :
  let '(ifp', ifr', err) := ioctl_handler demo_ioctl_ifp SIOCSIFMTU (mk_ifreq 16) in
  ifr' = mk_ifreq 16 /\
  (~ mtu_legal 16 -> err = EINVAL /\ ifp' = demo_ioctl_ifp) /\
  (mtu_legal 16 -> if_up demo_ioctl_ifp -> err = EBUSY /\ ifp' = demo_ioctl_ifp) /\
  (mtu_legal 16 -> ~ if_up demo_ioctl_ifp ->
     err = 0 /\ ifnet_view_of ifp' = view_set_mtu (ifnet_view_of demo_ioctl_ifp) 16).
Proof. exact (ioctl_set_mtu_spec demo_ioctl_ifp (mk_ifreq 16)). Defined.
