(* ===== verification/System.v ===== *)
(** * The driver as a whole: a step relation over all instances

    The state is the statics (slot table, lock) and every live instance,
    by object; the steps are the entry points IOKit and the network stack
    call: [init] of a new object, [start], [stop], [free] (which also
    ends the object), a transmission through [vcan_output], a control
    request through [vcan_ioctl], and the administrator bringing an
    interface up or down (the stack's [ifnet_set_flags] on IFF_UP, which
    the IFF_UP guard of the control path reads).  The stack calls the
    transmit and control paths on an interface some instance holds.
    [start] is taken on an instance without an interface: IOKit starts a
    fresh instance, or one it stopped.

    The theorem: in every reachable state the slot table is well formed;
    each instance with an interface holds exactly the slot of its
    [interface_index], the interface carries it as [softc] and unit, has a
    legal MTU and 64-bit counters; each instance without one holds no
    slot; and each used slot belongs to a live instance with an interface
    (no leaked slot).  Consequences: two instances never share a slot or
    a unit, [interface_count] never exceeds [VCAN_MAX_INTERFACES], and the
    table read as the abstract map slot -> owner of [Registry] is the map
    from unit number to the live instance holding that interface
    ([reachable_slot_map]). *)

From S2P Require Import Prelude Frame Registry Ifnet Instance Pipeline Ioctl.
From stdpp Require Import relations strings.

Import Registry.
Open Scope Z_scope.
Open Scope vcan_scope.

(** ** The kext entry points (lines 330-362)

    [vcan_start] and [vcan_stop] only log and return [KERN_SUCCESS];
    [_start] and [_stop], the symbols the kmod header exports, call them.
    Loading and unloading the kext touch no state of the driver: the
    instances are created and destroyed by IOKit through [init], [start],
    [stop] and [free], the steps of [step] below. *)
Definition KERN_SUCCESS : Z := 0.

Definition vcan_start : Z := KERN_SUCCESS.
Definition vcan_stop : Z := KERN_SUCCESS.
Definition _start : Z := vcan_start.
Definition _stop : Z := vcan_stop.

Record world (I : Type) := mk_world {
  w_statics : statics;
  w_insts : gmap obj (VirtualCANInterface I)
}.
Arguments mk_world {I} _ _.
Arguments w_statics {I} _.
Arguments w_insts {I} _.

Section System.
Context {I : Type} `{!IfnetKPI I}.

Definition world_init : world I := mk_world statics_init ∅.

(** The administrator sets or clears IFF_UP. *)
Definition admin_set_up (ifp : I) (up : bool) : I :=
  ifnet_set_flags ifp (if up then IFF_UP else 0) IFF_UP.

Inductive step : world I -> world I -> Prop :=
| step_init w o props s :
    w_insts w !! o = None -> init true props = Some s ->
    step w (mk_world (w_statics w) (<[o:=s]> (w_insts w)))
| step_start w o s super_ok lock_ok alloc_result attach_result g' s' ok :
    w_insts w !! o = Some s -> interface s = None ->
    start (w_statics w) o s super_ok lock_ok alloc_result attach_result = (g', s', ok) ->
    step w (mk_world g' (<[o:=s']> (w_insts w)))
| step_stop w o s g' s' :
    w_insts w !! o = Some s -> stop (w_statics w) s = (g', s') ->
    step w (mk_world g' (<[o:=s']> (w_insts w)))
| step_free w o s g' s' :
    w_insts w !! o = Some s -> free (w_statics w) s = (g', s') ->
    step w (mk_world g' (delete o (w_insts w)))
| step_output w o s ifp packet dup_result insts' err :
    w_insts w !! o = Some s -> interface s = Some ifp ->
    vcan_output (w_insts w) ifp packet dup_result = (insts', err) ->
    step w (mk_world (w_statics w) insts')
| step_ioctl w o s ifp command ifr insts' ifr' err :
    w_insts w !! o = Some s -> interface s = Some ifp ->
    vcan_ioctl (w_insts w) ifp command ifr = (insts', ifr', err) ->
    step w (mk_world (w_statics w) insts')
| step_admin w o s ifp up :
    w_insts w !! o = Some s -> interface s = Some ifp ->
    step w (mk_world (w_statics w)
              (<[o:=set_interface s (Some (admin_set_up ifp up))]> (w_insts w))).

Definition reachable (w : world I) : Prop := rtc step world_init w.

(** What holds of one instance: consistent with the table, and an
    interface it holds has a legal MTU and 64-bit counters. *)
Definition inst_ok (r : registry) (o : obj) (s : VirtualCANInterface I) : Prop :=
  instance_consistent r o s /\
  match interface s with
  | Some ifp => mtu_legal (ifnet_mtu ifp) /\ stats_wf (v_stats (ifnet_view_of ifp))
  | None => True
  end.

(** Every used slot belongs to a live instance that holds an interface. *)
Definition slots_owned (r : registry) (insts : gmap obj (VirtualCANInterface I)) : Prop :=
  forall i o, interfaces r !! i = Some (Some o) ->
    exists s ifp, insts !! o = Some s /\ interface s = Some ifp.

Definition world_wf (w : world I) : Prop :=
  registry_wf (table (w_statics w)) /\
  map_Forall (inst_ok (table (w_statics w))) (w_insts w) /\
  slots_owned (table (w_statics w)) (w_insts w).

End System.

(** ** How the table changes look to the other instances *)

(** The entries owned by an instance other than the claimant are the same
    after a claim. *)
Lemma owner_entries_acquire r o i r' o' j :
  acquire_slot r o = Some (i, r') -> o' <> o ->
  interfaces r' !! j = Some (Some o') <-> interfaces r !! j = Some (Some o').
Proof.
  intros Hacq Hne. destruct (acquire_slot_Some_inv _ _ _ _ Hacq) as ((_&_&Hfree)&Hlt&->&_).
  specialize (Hfree Hlt). rewrite list_lookup_insert_Some.
  split; [naive_solver|]. intros Hj. right. split; [|done]. intros ->. congruence.
Qed.

(** The entries owned by an instance other than the releaser are the same
    after a release. *)
Lemma owner_entries_release r i o o' j :
  interfaces r !! i = Some (Some o) -> o' <> o ->
  interfaces (release_slot r i) !! j = Some (Some o') <-> interfaces r !! j = Some (Some o').
Proof.
  intros Hi Hne. simpl. rewrite list_lookup_insert_Some.
  split; [naive_solver|]. intros Hj. right. split; [|done]. intros ->. congruence.
Qed.

Section Frame.
Context {I : Type} `{!IfnetKPI I}.

(** Consistency of an instance depends only on the entries it owns. *)
Lemma inst_ok_frame r r' o (s : VirtualCANInterface I) :
  (forall j, interfaces r' !! j = Some (Some o) <-> interfaces r !! j = Some (Some o)) ->
  inst_ok r o s -> inst_ok r' o s.
Proof.
  intros Hj [Hc Hrest]. split; [|done]. unfold instance_consistent, owns in *.
  destruct (interface s); [by rewrite Hj|]. intros [j Hown]. apply Hc. exists j. by apply Hj.
Qed.

(** Instances other than [o] keep their consistency through a change of
    the table that keeps their entries. *)
Lemma inst_ok_others r r' o (insts : gmap obj (VirtualCANInterface I)) :
  (forall o' j, o' <> o ->
     interfaces r' !! j = Some (Some o') <-> interfaces r !! j = Some (Some o')) ->
  map_Forall (inst_ok r) insts -> map_Forall (inst_ok r') (delete o insts).
Proof.
  intros Hframe Hall o' s' Hs'. apply lookup_delete_Some in Hs' as [Hne Hs'].
  eapply inst_ok_frame; [|by apply Hall]. intros j. apply Hframe. done.
Qed.

End Frame.

Section Preservation.
Context {I : Type} `{!IfnetKPI I, !IfnetLaws I}.
Implicit Types (w : world I) (s : VirtualCANInterface I).

(** An instance with an interface: its facts from the invariant. *)
Lemma inst_ok_some r o s ifp :
  inst_ok r o s -> interface s = Some ifp ->
  interfaces r !! interface_index s = Some (Some o) /\ ifnet_softc ifp = o /\
  ifnet_unit ifp = Z.of_nat (interface_index s) /\
  mtu_legal (ifnet_mtu ifp) /\ stats_wf (v_stats (ifnet_view_of ifp)).
Proof. unfold inst_ok, instance_consistent. intros [Hc Hr] Hifp. rewrite Hifp in Hc, Hr. naive_solver. Qed.

(** Replacing the interface object of one instance by one with the same
    [softc] and unit, a legal MTU and 64-bit counters keeps the
    invariant. *)
Lemma wf_update_ifnet w o s ifp ifp' :
  world_wf w -> w_insts w !! o = Some s -> interface s = Some ifp ->
  ifnet_softc ifp' = ifnet_softc ifp -> ifnet_unit ifp' = ifnet_unit ifp ->
  mtu_legal (ifnet_mtu ifp') -> stats_wf (v_stats (ifnet_view_of ifp')) ->
  world_wf (mk_world (w_statics w) (<[o:=set_interface s (Some ifp')]> (w_insts w))).
Proof.
  intros (Hr&Hall&Hown) Hs Hifp Hsoftc Hunit Hmtu Hst.
  destruct (inst_ok_some _ _ _ _ (Hall o s Hs) Hifp) as (Hslot&Hso&Hun&_&_).
  split_and!; simpl; [done| |].
  - apply map_Forall_insert_2; [|done].
    unfold inst_ok, instance_consistent. simpl. split_and!; congruence || done.
  - intros i o0 Hi. destruct (Hown i o0 Hi) as (s0&ifp0&Hs0&Hi0).
    destruct (decide (o0 = o)) as [->|Hne].
    + exists (set_interface s (Some ifp')), ifp'. by rewrite lookup_insert_eq.
    + exists s0, ifp0. by rewrite lookup_insert_ne.
Qed.


Lemma wf_output w o s ifp packet dup_result insts' err :
  world_wf w -> w_insts w !! o = Some s -> interface s = Some ifp ->
  vcan_output (w_insts w) ifp packet dup_result = (insts', err) ->
  world_wf (mk_world (w_statics w) insts').
Proof.
  intros Hwf Hs Hifp Hout. pose proof Hwf as (Hr&Hall&Hown).
  destruct (inst_ok_some _ _ _ _ (Hall o s Hs) Hifp) as (_&Hso&_&Hmtu&Hst).
  unfold vcan_output in Hout. rewrite Hso, Hs in Hout.
  destruct packet as [m|].
  - destruct (output_handler_view s ifp m dup_result Hifp Hst) as (ifp'&Hoh&Hv).
    rewrite Hoh in Hout. simplify_eq.
    eapply (wf_update_ifnet _ _ s ifp ifp'); [done|done|done| | | |].
    + by rewrite !ifnet_softc_view, Hv.
    + by rewrite !ifnet_unit_view, Hv.
    + rewrite ifnet_mtu_view, Hv. simpl. by rewrite <- ifnet_mtu_view.
    + rewrite Hv. by apply expected_output_stats_wf.
  - simpl in Hout. simplify_eq. rewrite insert_id by done. by destruct w.
Qed.

(** A control request changes at most the MTU of the interface. *)
Lemma ioctl_handler_frame (ifp : I) command ifr :
  let ifp' := (ioctl_handler ifp command ifr).1.1 in
  ifnet_softc ifp' = ifnet_softc ifp /\ ifnet_unit ifp' = ifnet_unit ifp /\
  v_stats (ifnet_view_of ifp') = v_stats (ifnet_view_of ifp).
Proof.
  unfold ioctl_handler. repeat (case_decide || case_match); simpl; try done.
  by rewrite !ifnet_softc_view, !ifnet_unit_view, view_ifnet_set_mtu.
Qed.

Lemma wf_ioctl w o s ifp command ifr insts' ifr' err :
  world_wf w -> w_insts w !! o = Some s -> interface s = Some ifp ->
  vcan_ioctl (w_insts w) ifp command ifr = (insts', ifr', err) ->
  world_wf (mk_world (w_statics w) insts').
Proof.
  intros Hwf Hs Hifp Hio. pose proof Hwf as (Hr&Hall&Hown).
  destruct (inst_ok_some _ _ _ _ (Hall o s Hs) Hifp) as (_&Hso&_&Hmtu&Hst).
  unfold vcan_ioctl in Hio. rewrite Hso, Hs in Hio.
  pose proof (ioctl_handler_frame ifp command ifr) as (Hf1&Hf2&Hf3).
  pose proof (ioctl_keeps_legal_mtu ifp command ifr Hmtu) as Hm.
  destruct (ioctl_handler ifp command ifr) as [[ifp' ifr0] e]. simplify_eq/=.
  eapply wf_update_ifnet; eauto. by rewrite Hf3.
Qed.

Lemma wf_admin w o s ifp up :
  world_wf w -> w_insts w !! o = Some s -> interface s = Some ifp ->
  world_wf (mk_world (w_statics w)
             (<[o:=set_interface s (Some (admin_set_up ifp up))]> (w_insts w))).
Proof.
  intros Hwf Hs Hifp. pose proof Hwf as (Hr&Hall&Hown).
  destruct (inst_ok_some _ _ _ _ (Hall o s Hs) Hifp) as (_&_&_&Hmtu&Hst).
  unfold admin_set_up.
  eapply (wf_update_ifnet _ o s ifp); [done|done|done| | | |].
  - by rewrite !ifnet_softc_view, view_ifnet_set_flags.
  - by rewrite !ifnet_unit_view, view_ifnet_set_flags.
  - rewrite ifnet_mtu_view, view_ifnet_set_flags. simpl. by rewrite <- ifnet_mtu_view.
  - by rewrite view_ifnet_set_flags.
Qed.

(** Replacing one instance and the table keeps the invariant when the
    new table is well formed, the instance is consistent with it, the
    other instances' entries are unchanged, and the instance holds an
    interface whenever it owns a slot. *)
Lemma wf_replace w g' o s' :
  world_wf w -> registry_wf (table g') -> inst_ok (table g') o s' ->
  (forall o' j, o' <> o ->
     interfaces (table g') !! j = Some (Some o') <->
     interfaces (table (w_statics w)) !! j = Some (Some o')) ->
  (owns (table g') o -> is_Some (interface s')) ->
  world_wf (mk_world g' (<[o:=s']> (w_insts w))).
Proof.
  intros (Hr&Hall&Hown) Hr' Hok Hframe Hslot. split_and!; simpl; [done| |].
  - rewrite <- insert_delete_eq. apply map_Forall_insert_2; [done|].
    by eapply inst_ok_others.
  - intros i o0 Hi. destruct (decide (o0 = o)) as [->|Hne].
    + destruct Hslot as [ifp Hifp]; [by exists i|]. exists s', ifp. by rewrite lookup_insert_eq.
    + apply (Hframe o0 i Hne) in Hi. destruct (Hown i o0 Hi) as (s0&ifp0&Hs0&Hi0).
      exists s0, ifp0. by rewrite lookup_insert_ne.
Qed.

Lemma wf_init w o props s :
  world_wf w -> w_insts w !! o = None -> init true props = Some s ->
  world_wf (mk_world (w_statics w) (<[o:=s]> (w_insts w))).
Proof.
  intros Hwf Ho Hinit. pose proof Hwf as (Hr&Hall&Hown).
  unfold init in Hinit. simplify_eq/=.
  apply wf_replace; [done|done| |done|].
  - split; [|done]. intros [i Hi]. destruct (Hown i o Hi) as (?&?&Hs&_). congruence.
  - intros [i Hi]. destruct (Hown i o Hi) as (?&?&Hs&_). congruence.
Qed.

Lemma wf_stop w o s g' s' :
  world_wf w -> w_insts w !! o = Some s -> stop (w_statics w) s = (g', s') ->
  world_wf (mk_world g' (<[o:=s']> (w_insts w))) /\ interface s' = None.
Proof.
  intros Hwf Hs Hstop. pose proof Hwf as (Hr&Hall&Hown).
  unfold stop, destroy_interface in Hstop.
  destruct (interface s) as [ifp|] eqn:Hifp; simplify_eq/=.
  - destruct (inst_ok_some _ _ _ _ (Hall o s Hs) Hifp) as (Hslot&_&_&_&_).
    destruct (release_slot_keeps_wf _ _ _ Hr Hslot) as (Hr'&_&Hnot).
    split; [|done]. apply wf_replace; simpl; try done.
    + intros o' j Hne. by apply (owner_entries_release _ _ o).
  - split; [|done]. rewrite insert_id by done. by destruct w as [[]].
Qed.

(** [free] does what [stop] does. *)
Lemma free_eq_stop (g : statics) s : free g s = stop g s.
Proof. unfold free, stop, destroy_interface. destruct (interface s); [done|]. by destruct g. Qed.

(** An instance without an interface can end. *)
Lemma wf_delete_idle (g : statics) (m : gmap obj (VirtualCANInterface I)) o s :
  world_wf (mk_world g m) -> m !! o = Some s -> interface s = None ->
  world_wf (mk_world g (delete o m)).
Proof.
  intros (Hr&Hall&Hown) Hs Hnone. split_and!; simpl; [done|by apply map_Forall_delete|].
  intros i o0 Hi. destruct (Hown i o0 Hi) as (s0&ifp0&Hs0&Hi0).
  exists s0, ifp0. destruct (decide (o = o0)) as [<-|Hne].
  - simpl in Hs0. rewrite Hs in Hs0. simplify_eq.
  - split; [by rewrite lookup_delete_ne|done].
Qed.

Lemma wf_free w o s g' s' :
  world_wf w -> w_insts w !! o = Some s -> free (w_statics w) s = (g', s') ->
  world_wf (mk_world g' (delete o (w_insts w))).
Proof.
  intros Hwf Hs Hfree. rewrite free_eq_stop in Hfree.
  destruct (wf_stop _ _ _ _ _ Hwf Hs Hfree) as [Hwf' Hnone].
  rewrite <- (delete_insert_eq (w_insts w) o s').
  eapply wf_delete_idle; [done| |done]. apply lookup_insert_eq.
Qed.

Lemma wf_start w o s super_ok lock_ok alloc_result attach_result g' s' ok :
  world_wf w -> w_insts w !! o = Some s -> interface s = None ->
  start (w_statics w) o s super_ok lock_ok alloc_result attach_result = (g', s', ok) ->
  world_wf (mk_world g' (<[o:=s']> (w_insts w))).
Proof.
  intros Hwf Hs Hnone Hstart. pose proof Hwf as (Hr&Hall&Hown).
  assert (Hnot : ~ owns (table (w_statics w)) o).
  { pose proof (Hall o s Hs) as [Hc _]. unfold instance_consistent in Hc. by rewrite Hnone in Hc. }
  unfold start in Hstart.
  destruct (negb super_ok || (negb (interface_lock (w_statics w)) && negb lock_ok)) eqn:Hfail.
  - assert (g' = w_statics w /\ s' = s) as [-> ->].
    { destruct super_ok, (interface_lock _), lock_ok; simpl in *; by simplify_eq. }
    rewrite insert_id by done. by destruct w.
  - assert (Hc : create_interface (table (w_statics w)) o s alloc_result attach_result =
                 (table g', s', ok)).
    { destruct super_ok, (interface_lock _), lock_ok; simpl in *; try done;
        destruct (create_interface _ _ _ _ _) as [[??]?]; by simplify_eq. }
    destruct (create_interface_keeps_consistent _ _ _ _ _ _ _ _ Hr Hnone Hnot Hc) as (Hr'&Hcons&Hok).
    destruct ok.
    + destruct (create_interface_true_inv _ _ _ _ _ _ _ Hc)
        as (index&ifp&Hacq&_&_&Hifp&_&_&Hview).
      apply wf_replace; try done.
      * split; [done|]. rewrite Hifp, ifnet_mtu_view, Hview. split.
        -- right; left. done.
        -- apply stats_zero_wf.
      * intros o' j Hne. by eapply owner_entries_acquire.
    + destruct (create_interface_false_inv _ _ _ _ _ _ _ Hr Hc) as (Htbl&_&Hs').
      apply wf_replace; try done.
      * split; [|by rewrite (Hs' Hnone)]. unfold instance_consistent. by rewrite (Hs' Hnone), Htbl.
      * intros o' j _. by rewrite Htbl.
      * rewrite Htbl. done.
Qed.

End Preservation.

Section Safety.
Context {I : Type} `{!IfnetKPI I, !IfnetLaws I}.

Lemma world_init_wf : world_wf (I:=I) world_init.
Proof.
  split_and!; simpl.
  - apply (prefix_table_wf []); [constructor|simpl; lia].
  - apply map_Forall_empty.
  - intros i o Hi. apply lookup_replicate in Hi as [[=] _].
Qed.

Lemma step_wf (w w' : world I) : world_wf w -> step w w' -> world_wf w'.
Proof.
  intros Hwf Hstep. destruct Hstep.
  - by eapply wf_init.
  - by eapply wf_start.
  - by eapply wf_stop.
  - by eapply wf_free.
  - by eapply wf_output.
  - by eapply wf_ioctl.
  - by eapply wf_admin.
Qed.

(** In every state the driver can reach, the slot table is well formed,
    every instance is consistent with it (an instance with an interface
    holds the slot of its [interface_index], the interface carries it as
    [softc] and unit, has a legal MTU and 64-bit counters; an instance
    without one holds no slot), and every used slot belongs to a live
    instance that holds an interface: no slot is ever leaked. *)
Lemma reachable_wf (w : world I) : reachable w -> world_wf w.
Proof. intros Hr. apply (rtc_preserved step world_wf step_wf _ _ Hr), world_init_wf. Qed.

(** C1. In every state the driver can reach, the slot table is well formed,
    every instance is consistent with it (an instance with an interface
    holds the slot of its [interface_index], the interface carries it as
    [softc] and unit, has a legal MTU and 64-bit counters; an instance
    without one holds no slot), and every used slot belongs to a live
    instance that holds an interface: no slot is ever leaked. *)
Theorem reachable_world_wf (w : world I) : reachable w -> world_wf w.
Proof. apply reachable_wf. Qed.

(** C31. Two live instances that hold interfaces never share a slot, so the
    interface names vcanN are distinct. *)
Theorem reachable_units_distinct (w : world I) o1 o2 s1 s2 ifp1 ifp2 :
  reachable w ->
  w_insts w !! o1 = Some s1 -> interface s1 = Some ifp1 ->
  w_insts w !! o2 = Some s2 -> interface s2 = Some ifp2 ->
  ifnet_unit ifp1 = ifnet_unit ifp2 -> o1 = o2.
Proof.
  intros Hr Hs1 Hi1 Hs2 Hi2 Hunit. destruct (reachable_wf w Hr) as (_&Hall&_).
  destruct (inst_ok_some _ _ _ _ (Hall _ _ Hs1) Hi1) as (Hslot1&_&Hu1&_).
  destruct (inst_ok_some _ _ _ _ (Hall _ _ Hs2) Hi2) as (Hslot2&_&Hu2&_).
  assert (interface_index s1 = interface_index s2) as Heq by lia.
  rewrite Heq, Hslot2 in Hslot1. congruence.
Qed.

(** C32. [interface_count] always equals the number of used slots and never
    exceeds [VCAN_MAX_INTERFACES]. *)
Theorem reachable_count_bound (w : world I) :
  reachable w ->
  interface_count (table (w_statics w)) = Z.of_nat (count_used (interfaces (table (w_statics w)))) /\
  0 <= interface_count (table (w_statics w)) <= Z.of_nat VCAN_MAX_INTERFACES.
Proof.
  intros Hr. destruct (reachable_wf w Hr) as (Hwf&_&_).
  split; [apply Hwf|]. by apply registry_wf_count_bound.
Qed.

(** C22. In every reachable state the slot table, read as the abstract
    map from slot to owner ([slot_map]), is exactly the map from unit
    number to the live instance holding an interface of that unit: the
    table refines the set of live interfaces vcanN. *)
Theorem reachable_slot_map (w : world I) i o :
  reachable w ->
  slot_map (interfaces (table (w_statics w))) !! i = Some o <->
  exists s ifp, w_insts w !! o = Some s /\ interface s = Some ifp /\ interface_index s = i.
Proof.
  intros Hr. destruct (reachable_wf w Hr) as ((_&_&Huniq)&Hall&Hown).
  rewrite lookup_slot_map. split.
  - destruct (interfaces _ !! i) as [[o'|]|] eqn:Hi; simpl; intros Ho; simplify_eq.
    destruct (Hown _ _ Hi) as (s&ifp&Hs&Hifp). exists s, ifp. split_and!; [done|done|].
    destruct (inst_ok_some _ _ _ _ (Hall _ _ Hs) Hifp) as (Hslot&_). by eapply Huniq.
  - intros (s&ifp&Hs&Hifp&<-).
    destruct (inst_ok_some _ _ _ _ (Hall _ _ Hs) Hifp) as (Hslot&_). by rewrite Hslot.
Qed.

(** C23. Stopping every instance leaves no trace in the statics: in every
    reachable state in which no live instance holds an interface (each was
    stopped, freed, or never started successfully), the slot table is back
    to its initial state, all sixteen slots free and [interface_count]
    zero. *)
Theorem reachable_idle_table_init (w : world I) :
  reachable w -> (forall o s, w_insts w !! o = Some s -> interface s = None) ->
  table (w_statics w) = registry_init.
Proof.
  intros Hr Hidle. destruct (reachable_wf w Hr) as (Hwf&_&Hown).
  apply registry_wf_unused_init; [done|]. intros i o Hi.
  destruct (Hown _ _ Hi) as (s&ifp&Hs&Hifp). by rewrite (Hidle o s Hs) in Hifp.
Qed.

End Safety.

(** ** Witnesses with the concrete stack [ViewIfnet] *)

(** The object 7 after [init] with echo on. *)
Definition demo_inst : VirtualCANInterface ifnet_view :=
  mk_vcan None true 0%nat.

(** The state after [init] then a successful [start] of object 7. *)
Definition demo_start : statics * VirtualCANInterface ifnet_view * bool :=
  start statics_init 7 demo_inst true true 0 0.

Definition demo_world : world ifnet_view :=
  mk_world demo_start.1.1 (<[7%nat:=demo_start.1.2]> (<[7%nat:=demo_inst]> ∅)).

Lemma demo_world_reachable : reachable demo_world.
Proof.
  unfold reachable. eapply rtc_l.
  { apply (step_init world_init 7 (<["echo"%string := OSBoolean true]> ∅) demo_inst); reflexivity. }
  eapply rtc_l; [|apply rtc_refl].
  set (w1 := mk_world (w_statics world_init) (<[7%nat:=demo_inst]> (w_insts world_init))).
  assert (Hs : step w1 (mk_world demo_start.1.1 (<[7%nat:=demo_start.1.2]> (w_insts w1)))).
  { apply (step_start w1 7 demo_inst true true 0 0 demo_start.1.1 demo_start.1.2 demo_start.2);
      reflexivity. }
  exact Hs.
Qed.

Lemma reachable_world_wf_witness : world_wf demo_world.
Proof. apply reachable_world_wf, demo_world_reachable. Defined.

Lemma reachable_count_bound_witness :
  interface_count (table (w_statics demo_world)) =
    Z.of_nat (count_used (interfaces (table (w_statics demo_world)))) /\
  0 <= interface_count (table (w_statics demo_world)) <= Z.of_nat VCAN_MAX_INTERFACES.
Proof. apply reachable_count_bound, demo_world_reachable. Defined.

Lemma reachable_units_distinct_witness : (7 = 7)%nat.
Proof.
  apply (reachable_units_distinct demo_world 7 7
           (mk_vcan (Some (attached_view 0 7)) true 0) (mk_vcan (Some (attached_view 0 7)) true 0)
           (attached_view 0 7) (attached_view 0 7));
    [apply demo_world_reachable|reflexivity..].
Defined.

Lemma reachable_slot_map_witness :
  slot_map (interfaces (table (w_statics demo_world))) !! 0%nat = Some 7%nat <->
  exists s ifp, w_insts demo_world !! 7%nat = Some s /\ interface s = Some ifp /\
                interface_index s = 0%nat.
Proof. apply (reachable_slot_map demo_world 0 7), demo_world_reachable. Defined.

(** Object 7 started, then stopped. *)
Definition demo_stopped : statics * VirtualCANInterface ifnet_view := stop demo_start.1.1 demo_start.1.2.

Definition demo_world_stopped : world ifnet_view :=
  mk_world demo_stopped.1 (<[7%nat:=demo_stopped.2]> (w_insts demo_world)).

Lemma demo_world_stopped_reachable : reachable demo_world_stopped.
Proof.
  eapply rtc_r; [apply demo_world_reachable|].
  apply (step_stop demo_world 7 demo_start.1.2); reflexivity.
Qed.

Lemma reachable_idle_table_init_witness : table (w_statics demo_world_stopped) = registry_init.
Proof.
  apply reachable_idle_table_init; [apply demo_world_stopped_reachable|].
  intros o s Hs. unfold demo_world_stopped, demo_world in Hs. cbn [w_insts] in Hs.
  rewrite !insert_insert_eq, lookup_insert_Some, lookup_empty in Hs.
  destruct Hs as [[_ <-]|[_ ?]]; [reflexivity|done].
Defined.
