(* ===== verification/Conc.v ===== *)
(** * Concurrent lifecycles: the model and the lazy-lock race

    IOKit may start and stop several [VirtualCANInterface] instances at
    once, one thread each.  This file gives each instance a program
    counter [pc] running through [start], [create_interface] and, once
    started, [stop]/[destroy_interface], split at every operation on the
    statics:
    - [start] (lines 89-96): the lazy allocation of [interface_lock];
    - [create_interface] (lines 115-183): [IOLockLock] (line 119), the
      slot scan (lines 122-127), the claim or the early return and
      [IOLockUnlock] (lines 129-139); then [ifnet_allocate] (line 153) and
      the configuration and [ifnet_attach] (lines 164-170); on a failure
      of either, [IOLockLock] again and the rollback of the slot (lines
      156-159, 175-178);
    - [destroy_interface] (lines 185-197), called by [stop]: the detach,
      then [IOLockLock], the release of the slot and [IOLockUnlock].
    One step of one thread is [thread_step]; [cstep] lets any thread move.
    The statics are the slot table, the current value of
    [interface_lock] (a lock object number, [None] for NULL), the holder
    of each lock object, and whether the kernel has panicked.
    [IOLockLock] and [IOLockUnlock] read [interface_lock] when they run,
    as the code does; [IOLockLock(NULL)], and [IOLockUnlock] by a thread
    that does not hold the mutex the static points to, panic (xnu's
    [lck_mtx_unlock] checks the owner), after which no thread moves.  A
    failed [IOLockAlloc] stores NULL into [interface_lock] (line 91).  The
    outcomes of [IOLockAlloc], [ifnet_allocate] and [ifnet_attach] are the
    boolean each step is given.

    The theorems here: every interleaving of [n] lifecycles ends within
    [10 * n] steps ([cstep_bounded], by the measure [remaining]); with the
    lock still NULL, two starts can both allocate a lock and both enter
    the section and claim slot 0, which leaves [interface_count] = 2 for
    one used slot and a second instance going on as unit 0 without a
    slot, and then panics the kernel in [IOLockUnlock] ([lazy_lock_race]).
    The case of a lock allocated before the instances start is in
    [ConcLock].

    Not modelled here: [super::start] and [super::stop] (taken to
    succeed), [free] (which does nothing after [stop]), and the effects of
    the ifnet calls on the interface (they are in [Instance]). *)

From S2P Require Import Prelude Registry.

Import Registry.
Open Scope Z_scope.
Open Scope vcan_scope.

Module Conc.

Abbreviation lock_id := nat.

(** Where an instance is in its lifecycle. *)
Inductive pc :=
| PcStart                                (* line 90: if (!interface_lock) *)
| PcAlloc                                (* line 91: interface_lock = IOLockAlloc() *)
| PcLock                                 (* line 119: IOLockLock(interface_lock) *)
| PcScan (l : lock_id)                   (* lines 122-127, holding lock l *)
| PcClaim (l : lock_id) (index : nat)    (* lines 129-139, holding lock l *)
| PcIfnetAlloc (index : nat)             (* lines 142-153: ifnet_allocate *)
| PcAttach (index : nat)                 (* lines 164-170: configure, ifnet_attach *)
| PcUndoLock (index : nat)               (* lines 156, 175: IOLockLock(interface_lock) *)
| PcUndo (l : lock_id) (index : nat)     (* lines 157-159, 176-178, holding lock l *)
| PcFailed                               (* start returned false *)
| PcRunning (index : nat)                (* start returned true: interface vcan<index> *)
| PcStopLock (index : nat)               (* lines 187-192: detach, IOLockLock *)
| PcStopRel (l : lock_id) (index : nat)  (* lines 193-195, holding lock l *)
| PcStopped                              (* stop returned *)
| PcFault.                               (* IOLockLock or IOLockUnlock panicked *)

(** The statics and the threads, one per instance. *)
Record cstate := mk_cstate {
  c_table : registry;              (* interfaces[], interface_count *)
  c_lock : option lock_id;         (* IOLock *interface_lock *)
  c_next_lock : lock_id;           (* the next object IOLockAlloc returns *)
  c_held : gmap lock_id obj;       (* the holder of each lock object *)
  c_threads : gmap obj pc;
  c_fault : bool                   (* the kernel has panicked *)
}.

Definition set_pc (s : cstate) (o : obj) (p : pc) : cstate :=
  mk_cstate (c_table s) (c_lock s) (c_next_lock s) (c_held s) (<[o:=p]> (c_threads s)) (c_fault s).

Definition set_held (s : cstate) (h : gmap lock_id obj) : cstate :=
  mk_cstate (c_table s) (c_lock s) (c_next_lock s) h (c_threads s) (c_fault s).

Definition set_ctable (s : cstate) (r : registry) : cstate :=
  mk_cstate r (c_lock s) (c_next_lock s) (c_held s) (c_threads s) (c_fault s).

Definition set_lock (s : cstate) (lock : option lock_id) : cstate :=
  mk_cstate (c_table s) lock (c_next_lock s) (c_held s) (c_threads s) (c_fault s).

(** The kernel panics in a lock call of [o]: [o] stops at [PcFault] and
    no thread moves any more. *)
Definition fault (s : cstate) (o : obj) : cstate :=
  mk_cstate (c_table s) (c_lock s) (c_next_lock s) (c_held s) (<[o:=PcFault]> (c_threads s)) true.

(** Lines 129-137 once [index] is known: the early return or
    [interfaces[index] = this; interface_count++]. *)
Definition claim_at (r : registry) (self : obj) (index : nat) : option registry :=
  if decide (VCAN_MAX_INTERFACES <= index)%nat then None
  else Some {| interfaces := <[index := Some self]> (interfaces r);
               interface_count := interface_count r +u32 1 |}.

(** [IOLockLock(interface_lock)] by [o], going on to [k l] once it holds
    the lock object [l] the static points to; [None] while another
    thread holds it.  [IOLockLock(NULL)] dereferences NULL: a panic. *)
Definition take_lock (s : cstate) (o : obj) (k : lock_id -> pc) : option cstate :=
  match c_lock s with
  | Some l =>
      match c_held s !! l with
      | None => Some (set_pc (set_held s (<[l:=o]> (c_held s))) o (k l))
      | Some _ => None
      end
  | None => Some (fault s o)
  end.

(** [IOLockUnlock(interface_lock)] by [o], going on to [p]: releases the
    lock object the static points to now.  xnu's [lck_mtx_unlock] panics
    when the caller does not hold that mutex, and on NULL. *)
Definition unlock_current (s : cstate) (o : obj) (p : pc) : cstate :=
  match c_lock s with
  | Some l =>
      if decide (c_held s !! l = Some o) then set_pc (set_held s (delete l (c_held s))) o p
      else fault s o
  | None => fault s o
  end.

(** One step of the thread of instance [o]; [ok] is the outcome of the
    call the step makes ([IOLockAlloc], [ifnet_allocate] or
    [ifnet_attach]).  [None] when the thread cannot move (blocked on a
    held lock, or finished), and once the kernel has panicked. *)
Definition thread_step (s : cstate) (o : obj) (ok : bool) : option cstate :=
  if c_fault s then None else
  match c_threads s !! o with
  | Some PcStart =>
      Some (set_pc s o (match c_lock s with Some _ => PcLock | None => PcAlloc end))
  | Some PcAlloc =>
      if ok then
        Some (set_pc (mk_cstate (c_table s) (Some (c_next_lock s)) (S (c_next_lock s))
                                (c_held s) (c_threads s) (c_fault s)) o PcLock)
      else Some (set_pc (set_lock s None) o PcFailed)
  | Some PcLock => take_lock s o PcScan
  | Some (PcScan l) => Some (set_pc s o (PcClaim l (find_slot (interfaces (c_table s)))))
  | Some (PcClaim l index) =>
      match claim_at (c_table s) o index with
      | None => Some (unlock_current s o PcFailed)
      | Some r => Some (unlock_current (set_ctable s r) o (PcIfnetAlloc index))
      end
  | Some (PcIfnetAlloc index) =>
      Some (set_pc s o (if ok then PcAttach index else PcUndoLock index))
  | Some (PcAttach index) =>
      Some (set_pc s o (if ok then PcRunning index else PcUndoLock index))
  | Some (PcUndoLock index) => take_lock s o (fun l => PcUndo l index)
  | Some (PcUndo l index) =>
      Some (unlock_current (set_ctable s (release_slot (c_table s) index)) o PcFailed)
  | Some (PcRunning index) => Some (set_pc s o (PcStopLock index))
  | Some (PcStopLock index) => take_lock s o (fun l => PcStopRel l index)
  | Some (PcStopRel l index) =>
      Some (unlock_current (set_ctable s (release_slot (c_table s) index)) o PcStopped)
  | _ => None
  end.

(** Any thread may take the next step. *)
Definition cstep (s s' : cstate) : Prop :=
  exists o b, thread_step s o b = Some s'.

(** The instances [os] about to start, with [interface_lock] already
    allocated as [lock] or still NULL (lines 49-51). *)
Definition cinit (os : list obj) (lock : option lock_id) : cstate :=
  mk_cstate registry_init lock (match lock with Some l => S l | None => 0%nat end) ∅
            (list_to_map ((fun o => (o, PcStart)) <$> os)) false.

(** Between [IOLockLock] and [IOLockUnlock]. *)
Definition critical (p : pc) : bool :=
  match p with PcScan _ | PcClaim _ _ | PcUndo _ _ | PcStopRel _ _ => true | _ => false end.

Definition in_critical (s : cstate) (o : obj) : Prop :=
  exists p, c_threads s !! o = Some p /\ critical p = true.

(** A thread that has nothing left to do. *)
Definition finished (p : pc) : bool :=
  match p with PcFailed | PcStopped => true | _ => false end.

(** Steps left to a thread on its longest path. *)
Definition pc_left (p : pc) : nat :=
  match p with
  | PcStart => 10 | PcAlloc => 9 | PcLock => 8 | PcScan _ => 7 | PcClaim _ _ => 6
  | PcIfnetAlloc _ => 5 | PcAttach _ => 4 | PcRunning _ => 3
  | PcUndoLock _ | PcStopLock _ => 2 | PcUndo _ _ | PcStopRel _ _ => 1
  | PcFailed | PcStopped | PcFault => 0
  end.

Definition remaining (s : cstate) : nat :=
  sum_list_with (pc_left ∘ snd) (map_to_list (c_threads s)).

(** A schedule run: each entry lets one thread move (with the outcome of
    its call); a thread that cannot move is skipped. *)
Fixpoint run (s : cstate) (sched : list (obj * bool)) : cstate :=
  match sched with
  | [] => s
  | (o, b) :: sched' => run (default s (thread_step s o b)) sched'
  end.

(** ** Runs of a schedule are interleavings *)

Lemma run_rtc s sched : rtc cstep s (run s sched).
Proof.
  revert s. induction sched as [|[o b] sched IH]; intros s; simpl; [done|].
  destruct (thread_step s o b) as [s'|] eqn:E; simpl; [|apply IH].
  eapply rtc_l; [by exists o, b|apply IH].
Qed.

(** ** The lazy allocation of the lock races *)

(** Instances 1 and 2 start together while [interface_lock] is NULL:
    both see NULL, 1 allocates lock 0 and takes it, 2 allocates lock 1,
    overwriting the static, and takes that one; both scan and find slot 0
    free.  No thread has called [IOLockUnlock] yet. *)
Definition race_enter : list (obj * bool) :=
  [(1, true); (2, true); (1, true); (1, true); (2, true); (2, true); (1, true); (2, true)]%nat.

(** 2 claims slot 0 and unlocks lock 1, its own; 1 claims slot 0 too and
    unlocks [interface_lock], lock 1, which it does not hold. *)
Definition race_finish : list (obj * bool) := [(2, true); (1, true)]%nat.

(** C3. When two instances start while [interface_lock] is still NULL,
    there is an interleaving in which both allocate a lock and both are
    inside the locked section at once, about to claim slot 0.  Both claims
    then run (lines 134-136): slot 0 holds instance 1 alone while
    [interface_count] is 2, so the table invariant is broken, and
    instance 2 goes on as unit 0 without a slot; the [IOLockUnlock] of
    instance 1 (line 139) is on lock 1, which it does not hold, and the
    kernel panics. *)
Theorem lazy_lock_race :
  exists s1 s2,
    rtc cstep (cinit [1; 2]%nat None) s1 /\ in_critical s1 1%nat /\ in_critical s1 2%nat /\
    c_threads s1 !! 1%nat = Some (PcClaim 0 0) /\ c_threads s1 !! 2%nat = Some (PcClaim 1 0) /\
    rtc cstep s1 s2 /\
    interfaces (c_table s2) = Some 1%nat :: replicate 15 None /\
    interface_count (c_table s2) = 2 /\ ~ registry_wf (c_table s2) /\
    c_threads s2 !! 2%nat = Some (PcIfnetAlloc 0) /\ ~ owns (c_table s2) 2%nat /\
    c_fault s2 = true.
Proof.
  set (s1 := run (cinit [1; 2]%nat None) race_enter).
  exists s1, (run s1 race_finish). split_and!; try apply run_rtc.
  1, 2: eexists; split; [vm_compute; reflexivity|done].
  1-4, 6, 8: vm_compute; reflexivity.
  - intros (_&Hc&_). vm_compute in Hc. discriminate.
  - intros [i Hi]. apply list_elem_of_lookup_2 in Hi. revert Hi.
    refine (bool_decide_eq_false_1 _ _). vm_compute. reflexivity.
Qed.

(** ** Termination *)

Lemma remaining_insert (m : gmap obj pc) o p p' :
  m !! o = Some p ->
  (sum_list_with (pc_left ∘ snd) (map_to_list (<[o:=p']> m)) + pc_left p =
   sum_list_with (pc_left ∘ snd) (map_to_list m) + pc_left p')%nat.
Proof.
  intros Hp. rewrite <- (insert_delete_id m o p Hp) at 2. rewrite <- insert_delete_eq.
  rewrite !map_to_list_insert by apply lookup_delete_eq. simpl. lia.
Qed.

(** Every step moves one thread to a place with fewer steps left. *)
Lemma thread_step_progress s o b s' :
  thread_step s o b = Some s' ->
  exists p p', c_threads s !! o = Some p /\ c_threads s' = <[o:=p']> (c_threads s) /\
               (pc_left p' < pc_left p)%nat.
Proof.
  unfold thread_step. destruct (c_fault s); [done|].
  destruct (c_threads s !! o) as [p|] eqn:Ho; [|done].
  intros Hs. exists p.
  destruct p; try done; unfold take_lock, unlock_current, fault in Hs;
    repeat case_match; simplify_eq/=; eexists; split_and!; try done; simpl; lia.
Qed.

(** Every interleaving step brings the threads closer to the end. *)
Lemma cstep_remaining s s' : cstep s s' -> (remaining s' < remaining s)%nat.
Proof.
  intros (o&b&(p&p'&Ho&Ht&Hlt)%thread_step_progress). unfold remaining. rewrite Ht.
  pose proof (remaining_insert _ o p p' Ho). lia.
Qed.

Lemma remaining_cinit os lock : (remaining (cinit os lock) <= 10 * length os)%nat.
Proof.
  unfold remaining, cinit. cbn [c_threads]. induction os as [|o os IH]; [done|].
  change (length (o :: os)) with (S (length os)). rewrite fmap_cons, list_to_map_cons.
  destruct ((list_to_map ((fun o => (o, PcStart)) <$> os) : gmap obj pc) !! o) as [p|] eqn:Ho.
  - pose proof (remaining_insert _ o p PcStart Ho).
    assert (p = PcStart) as ->; [|lia].
    apply elem_of_list_to_map_2, list_elem_of_fmap in Ho as (o'&Heq&_). by simplify_eq.
  - rewrite map_to_list_insert by done. simpl. lia.
Qed.

Lemma nsteps_remaining n s s' : nsteps cstep n s s' -> (remaining s' + n <= remaining s)%nat.
Proof. induction 1 as [|n x y z Hxy _ IH]; [lia|]. apply cstep_remaining in Hxy. lia. Qed.

(** C13. Interleaved lifecycles always terminate: whatever the schedule,
    the outcomes of the calls and whether [interface_lock] exists, [n]
    instances take at most [10 * n] steps in all, since every step moves
    one of them forward. *)
Theorem cstep_bounded os lock n s :
  nsteps cstep n (cinit os lock) s -> (n <= 10 * length os)%nat.
Proof.
  intros Hn. pose proof (nsteps_remaining _ _ _ Hn). pose proof (remaining_cinit os lock). lia.
Qed.

(** ** Slot owners are instances *)

(** Every instance that owns a slot has a thread. *)
Definition owners_known (s : cstate) : Prop :=
  forall i o, interfaces (c_table s) !! i = Some (Some o) -> is_Some (c_threads s !! o).

(** A step leaves the table alone, releases a slot, or claims one for the
    thread that moves. *)
Lemma thread_step_table s o b s' :
  thread_step s o b = Some s' ->
  c_table s' = c_table s \/ (exists i, c_table s' = release_slot (c_table s) i) \/
  (exists i, claim_at (c_table s) o i = Some (c_table s')).
Proof.
  unfold thread_step. destruct (c_fault s); [done|].
  destruct (c_threads s !! o) as [p|]; [|done].
  destruct p; unfold take_lock, unlock_current, fault; intros Hs;
    repeat case_match; simplify_eq/=; eauto.
Qed.

Lemma owners_known_step s s' : owners_known s -> cstep s s' -> owners_known s'.
Proof.
  intros Hk (o&b&Hs) i o' Hi.
  destruct (thread_step_progress _ _ _ _ Hs) as (p&p'&Ho&Ht&_). rewrite Ht.
  destruct (decide (o' = o)) as [->|Hne]; [by rewrite lookup_insert_eq|].
  rewrite lookup_insert_ne by done. apply (Hk i o').
  destruct (thread_step_table _ _ _ _ Hs) as [Heq|[[j Heq]|[j Hc]]]; [by rewrite Heq in Hi| |].
  - rewrite Heq in Hi. apply list_lookup_insert_Some in Hi as [(_&[=]&_)|(_&Hi)]; done.
  - unfold claim_at in Hc. case_decide; [done|]. injection Hc as Hc. rewrite <- Hc in Hi.
    apply list_lookup_insert_Some in Hi as [(_&[= ->]&_)|(_&Hi)]; done.
Qed.

(** Only the instances of the threads ever own a slot. *)
Lemma owners_known_reachable os lock s : rtc cstep (cinit os lock) s -> owners_known s.
Proof.
  intros Hr. apply (rtc_preserved cstep owners_known owners_known_step _ _ Hr).
  intros i o Hi. apply lookup_replicate in Hi as [[=] _].
Qed.

End Conc.

(** ** Witnesses *)

(** Instance 1 alone takes one step from the start. *)
Lemma cstep_bounded_witness : (1 <= 10 * length [1%nat])%nat.
Proof.
  apply (Conc.cstep_bounded [1%nat] None 1 (Conc.set_pc (Conc.cinit [1%nat] None) 1 Conc.PcAlloc)).
  eapply nsteps_l; [|apply nsteps_O]. exists 1%nat, true. reflexivity.
Defined.

