(* ===== verification/ConcLock.v ===== *)
(** * Concurrent lifecycles with the lock allocated

    When [interface_lock] is allocated before the instances start (the
    first [start] ran alone, say), the lock does what the code means it
    to: every interleaving of starts, rollbacks and stops of the model of
    [Conc] keeps the slot table well formed, never has two instances
    between [IOLockLock] and [IOLockUnlock], keeps the slot of every
    instance past its claim as its own, never panics in a lock call, and
    never deadlocks.

    The proof is one invariant, [locked_inv], preserved by every step
    ([locked_inv_step]): the table is well formed, [interface_lock] is the
    lock object [l], the kernel has not panicked, the holder of [l] is inside the section, and each
    thread is where [thread_ok] says (a thread inside the section holds
    [l]; a thread past its claim owns the slot its program counter
    records; the others own no slot). *)

From S2P Require Import Prelude Registry Conc.

Import Registry Conc.
Open Scope Z_scope.
Open Scope vcan_scope.

Module ConcLock.

(** [o] owns the slot [i]. *)
Definition has_slot (r : registry) (i : nat) (o : obj) : Prop := interfaces r !! i = Some (Some o).

(** Where the thread of [o] at [p] stands with respect to the table and
    the lock object [l]. *)
Definition thread_ok (s : cstate) (l : lock_id) (o : obj) (p : pc) : Prop :=
  match p with
  | PcStart | PcLock | PcFailed | PcStopped => ~ owns (c_table s) o /\ c_held s !! l <> Some o
  | PcAlloc | PcFault => False
  | PcScan l' => l' = l /\ c_held s !! l = Some o /\ ~ owns (c_table s) o
  | PcClaim l' i =>
      l' = l /\ c_held s !! l = Some o /\ ~ owns (c_table s) o /\
      i = find_slot (interfaces (c_table s))
  | PcIfnetAlloc i | PcAttach i | PcUndoLock i | PcRunning i | PcStopLock i =>
      has_slot (c_table s) i o /\ c_held s !! l <> Some o
  | PcUndo l' i | PcStopRel l' i => l' = l /\ c_held s !! l = Some o /\ has_slot (c_table s) i o
  end.

Definition locked_inv (l : lock_id) (s : cstate) : Prop :=
  registry_wf (c_table s) /\ c_lock s = Some l /\ c_fault s = false /\
  (forall o, c_held s !! l = Some o -> in_critical s o) /\
  map_Forall (thread_ok s l) (c_threads s).

(** ** How the table changes look to the other instances *)

Section Others.
Context (r r' : registry) (i : nat) (o o' : obj).
Hypothesis Hne : o' <> o.

(** A claim of a free slot for [o]. *)
Lemma has_slot_claim_other :
  interfaces r' = <[i:=Some o]> (interfaces r) -> interfaces r !! i = Some None ->
  forall j, has_slot r' j o' <-> has_slot r j o'.
Proof.
  intros Hr Hfree j. unfold has_slot. rewrite Hr, list_lookup_insert_Some. split.
  - intros [(_&[= ->]&_)|(_&Hj)]; done.
  - intros Hj. right. split; [|done]. intros ->. congruence.
Qed.

(** The release of the slot of [o]. *)
Lemma has_slot_release_other :
  interfaces r' = <[i:=None]> (interfaces r) -> has_slot r i o ->
  forall j, has_slot r' j o' <-> has_slot r j o'.
Proof.
  intros Hr Hi j. unfold has_slot in *. rewrite Hr, list_lookup_insert_Some. split.
  - intros [(_&[=]&_)|(_&Hj)]; done.
  - intros Hj. right. split; [|done]. intros ->. congruence.
Qed.

End Others.

(** ** Lemmas on [thread_ok] *)

Lemma thread_ok_frame s s' l o p :
  c_table s' = c_table s -> c_held s' !! l = c_held s !! l ->
  thread_ok s l o p -> thread_ok s' l o p.
Proof. intros Ht Hh. destruct p; simpl; rewrite ?Ht, ?Hh; done. Qed.

(** A thread outside the section only cares about its own slots and that
    it does not hold the lock. *)
Lemma thread_ok_outside s s' l o p :
  critical p = false -> thread_ok s l o p ->
  (forall j, has_slot (c_table s') j o <-> has_slot (c_table s) j o) ->
  c_held s' !! l <> Some o -> thread_ok s' l o p.
Proof.
  intros Hc Hok Hslot Hh.
  assert (Hown : owns (c_table s') o <-> owns (c_table s) o).
  { unfold owns. split; intros [j Hj]; exists j; by apply Hslot. }
  destruct p; simpl in *; try done; rewrite ?Hown, ?Hslot; tauto.
Qed.

Lemma thread_ok_critical_held s l o p :
  thread_ok s l o p -> critical p = true -> c_held s !! l = Some o.
Proof. destruct p; simpl; naive_solver. Qed.

Lemma in_critical_set_pc s o o' p :
  o' <> o -> in_critical s o' -> in_critical (set_pc s o p) o'.
Proof. intros Hne (p'&Hp'&Hc). exists p'. simpl. by rewrite lookup_insert_ne. Qed.

(** Moving the thread [o] keeps every thread fine when its new place is
    fine and every other thread is. *)
Lemma threads_set_pc (s' : cstate) l (m : gmap obj pc) o p :
  c_threads s' = <[o:=p]> m -> thread_ok s' l o p ->
  (forall o' p', o' <> o -> m !! o' = Some p' -> thread_ok s' l o' p') ->
  map_Forall (thread_ok s' l) (c_threads s').
Proof.
  intros Hm Hp Hoth o' p'. rewrite Hm. intros [[<- <-]|[Hne Hs]]%lookup_insert_Some; auto.
Qed.

(** A thread that does not hold the lock is outside the section. *)
Lemma outside_unless_holder l s o p :
  locked_inv l s -> c_threads s !! o = Some p -> c_held s !! l <> Some o -> critical p = false.
Proof.
  intros (_&_&_&_&Hall) Ho Hh. destruct (critical p) eqn:Hc; [|done].
  by pose proof (thread_ok_critical_held _ _ _ _ (Hall o p Ho) Hc).
Qed.

(** [IOLockUnlock] by the holder of the lock releases it. *)
Lemma unlock_current_holder s l o p :
  c_lock s = Some l -> c_held s !! l = Some o ->
  unlock_current s o p = set_pc (set_held s (delete l (c_held s))) o p.
Proof. intros Hl Hh. unfold unlock_current. rewrite Hl. by rewrite decide_True. Qed.

(** The claim of [create_interface] is the scan followed by [claim_at]. *)
Lemma acquire_slot_claim_at r o :
  acquire_slot r o = (fun r' => (find_slot (interfaces r), r')) <$> claim_at r o (find_slot (interfaces r)).
Proof. unfold acquire_slot, claim_at. by case_decide. Qed.

(** ** Each kind of step keeps the invariant *)

(** A move that touches neither the table nor the lock. *)
Lemma locked_inv_move l s o p p' :
  locked_inv l s -> c_threads s !! o = Some p ->
  (critical p = true -> critical p' = true) -> thread_ok s l o p' ->
  locked_inv l (set_pc s o p').
Proof.
  intros Hinv Ho Hcrit Hok. pose proof Hinv as (Hwf&Hlock&Hnf&Hheld&Hall).
  split_and!; [done..| |].
  - intros o' Hh. destruct (decide (o' = o)) as [->|Hne].
    + destruct (Hheld o Hh) as (p0&Hp0&Hc). rewrite Ho in Hp0. injection Hp0 as <-.
      exists p'. simpl. rewrite lookup_insert_eq. auto.
    + by apply in_critical_set_pc, Hheld.
  - eapply threads_set_pc; [done|by eapply thread_ok_frame|]. intros o' p0 _ Hp0.
    eapply thread_ok_frame, (Hall _ _ Hp0); done.
Qed.

(** [IOLockLock] by a thread outside the section. *)
Lemma locked_inv_take l s o p k s' :
  locked_inv l s -> c_threads s !! o = Some p -> critical p = false -> critical (k l) = true ->
  (forall s'', c_table s'' = c_table s -> c_held s'' !! l = Some o -> thread_ok s l o p ->
               thread_ok s'' l o (k l)) ->
  take_lock s o k = Some s' -> locked_inv l s'.
Proof.
  intros Hinv Ho Hc Hk Hnew. pose proof Hinv as (Hwf&Hlock&Hnf&Hheld&Hall).
  unfold take_lock. rewrite Hlock. destruct (c_held s !! l) eqn:Hl; [done|].
  intros [= <-]. split_and!; [done..| |].
  - intros o' Hh. simpl in Hh. rewrite lookup_insert_eq in Hh. injection Hh as <-.
    exists (k l). simpl. by rewrite lookup_insert_eq.
  - eapply threads_set_pc; [done|apply Hnew; [done|simpl; by rewrite lookup_insert_eq|auto]|].
    intros o' p' Hne Hp'. apply (thread_ok_outside s); [|by apply Hall|done|].
    + apply (outside_unless_holder l s o' p' Hinv Hp'). by rewrite Hl.
    + simpl. rewrite lookup_insert_eq. congruence.
Qed.

(** The end of the section: the table becomes [r], the lock is released,
    the thread moves to [p'] outside the section. *)
Lemma locked_inv_leave l s o p r p' :
  locked_inv l s -> c_threads s !! o = Some p -> c_held s !! l = Some o ->
  registry_wf r -> critical p' = false ->
  (forall o', o' <> o -> forall j, has_slot r j o' <-> has_slot (c_table s) j o') ->
  thread_ok (set_ctable (set_held s (delete l (c_held s))) r) l o p' ->
  locked_inv l (set_pc (set_ctable (set_held s (delete l (c_held s))) r) o p').
Proof.
  intros Hinv Ho Hh Hwf' Hc' Hoth Hok. pose proof Hinv as (Hwf&Hlock&Hnf&Hheld&Hall).
  assert (Hunl : delete l (c_held s) !! l = None) by apply lookup_delete_eq.
  split_and!; [done..|intros ?; simpl; by rewrite Hunl|].
  eapply threads_set_pc; [done|done|]. intros o' p0 Hne Hp0.
  apply (thread_ok_outside s _ l o' p0); [|exact (Hall _ _ Hp0)|by apply Hoth|simpl; by rewrite Hunl].
  apply (outside_unless_holder l s o' p0 Hinv Hp0). congruence.
Qed.

(** A release of the slot [i] of the holder [o] (rollback or stop). *)
Lemma locked_inv_release l s o i p' :
  locked_inv l s -> c_threads s !! o = Some p' -> critical p' = true ->
  thread_ok s l o p' -> has_slot (c_table s) i o ->
  forall p'', critical p'' = false -> finished p'' = true ->
  locked_inv l (unlock_current (set_ctable s (release_slot (c_table s) i)) o p'').
Proof.
  intros Hinv Ho Hc Hok Hi p'' Hc'' Hf. pose proof Hinv as (Hwf&Hlock&Hnf&_&_).
  pose proof (thread_ok_critical_held _ _ _ _ Hok Hc) as Hh.
  destruct (release_slot_keeps_wf _ _ _ Hwf Hi) as (Hwf'&_&Hnot).
  assert (Hunl : delete l (c_held s) !! l = None) by apply lookup_delete_eq.
  rewrite (unlock_current_holder _ l) by done.
  apply (locked_inv_leave l s o p'); [done..| |].
  - intros o' Hne. by apply (has_slot_release_other _ _ i o o').
  - destruct p''; try done; simpl; by rewrite Hunl.
Qed.

(** The claim, on both of its outcomes. *)
Lemma locked_inv_claim l s o l' i :
  locked_inv l s -> c_threads s !! o = Some (PcClaim l' i) ->
  match claim_at (c_table s) o i with
  | None => locked_inv l (unlock_current s o PcFailed)
  | Some r => locked_inv l (unlock_current (set_ctable s r) o (PcIfnetAlloc i))
  end.
Proof.
  intros Hinv Ho. pose proof Hinv as (Hwf&Hlock&Hnf&_&Hall).
  pose proof (Hall o _ Ho) as (->&Hh&Hown&->).
  assert (Hunl : delete l (c_held s) !! l = None) by apply lookup_delete_eq.
  destruct (claim_at (c_table s) o _) as [r|] eqn:Hc; rewrite (unlock_current_holder _ l) by done.
  - pose proof (acquire_slot_claim_at (c_table s) o) as Hacq. rewrite Hc in Hacq.
    destruct (acquire_slot_keeps_wf _ _ _ _ Hwf Hown Hacq) as (Hwf'&_&Hfree&Hi).
    destruct (acquire_slot_Some_inv _ _ _ _ Hacq) as (_&_&Hr&_).
    apply (locked_inv_leave l s o (PcClaim l (find_slot (interfaces (c_table s)))) r (PcIfnetAlloc (find_slot (interfaces (c_table s))))); [done..| |].
    + intros o' Hne. by apply (has_slot_claim_other _ _ (find_slot (interfaces (c_table s))) o o').
    + simpl. by rewrite Hunl.
  - change (set_held s (delete l (c_held s))) with
      (set_ctable (set_held s (delete l (c_held s))) (c_table s)).
    apply (locked_inv_leave l s o (PcClaim l (find_slot (interfaces (c_table s)))) (c_table s) PcFailed); [done..|intros; done|].
    simpl. by rewrite Hunl.
Qed.

(** Every interleaving step keeps the invariant. *)
Lemma locked_inv_step l s s' : locked_inv l s -> cstep s s' -> locked_inv l s'.
Proof.
  intros Hinv (o&b&Hstep). pose proof Hinv as (_&Hlock&Hnf&_&Hall).
  unfold thread_step in Hstep. rewrite Hnf in Hstep.
  destruct (c_threads s !! o) as [p|] eqn:Ho; [|done].
  pose proof (Hall o p Ho) as Hok.
  destruct p as [| | |l'|l' i|i|i|i|l' i| |i|i|l' i| |]; try done.
  - rewrite Hlock in Hstep. injection Hstep as <-. by apply (locked_inv_move l s o PcStart).
  - apply (locked_inv_take l s o PcLock PcScan); [done..| |done].
    intros s'' Ht Hh Hok'. simpl in *. rewrite Ht. naive_solver.
  - injection Hstep as <-. apply (locked_inv_move l s o (PcScan l')); [done..|].
    simpl in *. naive_solver.
  - pose proof (locked_inv_claim l s o l' i Hinv Ho) as Hc.
    destruct (claim_at _ _ _); by injection Hstep as <-.
  - injection Hstep as <-. apply (locked_inv_move l s o (PcIfnetAlloc i)); [done..|]. by destruct b.
  - injection Hstep as <-. apply (locked_inv_move l s o (PcAttach i)); [done..|]. by destruct b.
  - apply (locked_inv_take l s o (PcUndoLock i) (fun l => PcUndo l i)); [done..| |done].
    intros s'' Ht Hh Hok'. simpl in *. rewrite Ht. naive_solver.
  - injection Hstep as <-. destruct Hok as (->&Hh&Hi). by eapply locked_inv_release.
  - injection Hstep as <-. by apply (locked_inv_move l s o (PcRunning i)).
  - apply (locked_inv_take l s o (PcStopLock i) (fun l => PcStopRel l i)); [done..| |done].
    intros s'' Ht Hh Hok'. simpl in *. rewrite Ht. naive_solver.
  - injection Hstep as <-. destruct Hok as (->&Hh&Hi). by eapply locked_inv_release.
Qed.

Lemma locked_inv_init l os : locked_inv l (cinit os (Some l)).
Proof.
  split_and!; [apply registry_init_wf|done..|].
  intros o p Hp%elem_of_list_to_map_2. apply list_elem_of_fmap in Hp as (o'&Heq&_).
  simplify_eq/=. split; [apply registry_init_not_owns|done].
Qed.

(** The invariant holds in every state reachable from the start. *)
Lemma locked_reachable l os s : rtc cstep (cinit os (Some l)) s -> locked_inv l s.
Proof. intros Hr. apply (rtc_preserved cstep (locked_inv l) (locked_inv_step l) _ _ Hr), locked_inv_init. Qed.

(** ** Progress *)

(** The places where a thread waits for the lock. *)
Definition waits (p : pc) : bool :=
  match p with PcLock | PcUndoLock _ | PcStopLock _ => true | _ => false end.

(** A thread that neither waits for the lock nor has finished can move. *)
Lemma step_unless_waiting s o p :
  c_fault s = false -> c_threads s !! o = Some p -> finished p = false -> waits p = false ->
  p <> PcFault -> exists s', cstep s s'.
Proof.
  intros Hnf Ho Hf Hw Hp. exists (default s (thread_step s o true)), o, true.
  unfold thread_step. rewrite Hnf, Ho. destruct p; try done; simpl; by repeat case_match.
Qed.

(** With the lock allocated, a thread that has not finished can move, or
    the holder of the lock can. *)
Lemma locked_progress l s o p :
  locked_inv l s -> c_threads s !! o = Some p -> finished p = false -> exists s', cstep s s'.
Proof.
  intros Hinv Ho Hf. pose proof Hinv as (_&Hlock&Hnf&Hheld&Hall).
  destruct (waits p) eqn:Hw.
  2: { apply (step_unless_waiting s o p); [done..|]. intros ->. exact (Hall o _ Ho). }
  destruct (c_held s !! l) as [o'|] eqn:Hl.
  - destruct (Hheld o' eq_refl) as (p'&Hp'&Hc).
    apply (step_unless_waiting s o' p' Hnf Hp'); destruct p'; done.
  - exists (default s (thread_step s o true)), o, true.
    unfold thread_step, take_lock. rewrite Hnf, Ho. destruct p; try done; by rewrite Hlock, Hl.
Qed.

(** A state reached with the lock allocated from which no thread moves
    has every thread finished. *)
Lemma locked_stuck_finished l os s :
  rtc cstep (cinit os (Some l)) s -> (forall s', ~ cstep s s') ->
  map_Forall (fun _ p => finished p = true) (c_threads s).
Proof.
  intros Hr Hstuck o p Hp. destruct (finished p) eqn:Hf; [done|].
  destruct (locked_progress l s o p (locked_reachable l os s Hr) Hp Hf) as [s' Hs'].
  by destruct (Hstuck s').
Qed.

(** ** Theorems *)

(** C2. When [interface_lock] is allocated before the instances start,
    every interleaving of their starts (with any outcome of
    [ifnet_allocate] and [ifnet_attach], and the rollbacks they cause)
    and stops keeps the slot table well formed, never has two instances
    between [IOLockLock] and [IOLockUnlock], leaves every running
    instance the owner of the slot of its unit, leaves every failed or
    stopped instance without a slot, and never makes the kernel panic in
    [IOLockLock] or [IOLockUnlock]. *)
Theorem locked_start_safe l os s :
  rtc cstep (cinit os (Some l)) s ->
  registry_wf (c_table s) /\
  (forall o1 o2, in_critical s o1 -> in_critical s o2 -> o1 = o2) /\
  (forall o i, c_threads s !! o = Some (PcRunning i) -> interfaces (c_table s) !! i = Some (Some o)) /\
  (forall o p, c_threads s !! o = Some p -> finished p = true -> ~ owns (c_table s) o) /\
  c_fault s = false.
Proof.
  intros Hr. destruct (locked_reachable l os s Hr) as (Hwf&_&Hnf&_&Hall).
  split_and!; [done| | | |done].
  - intros o1 o2 (p1&H1&C1) (p2&H2&C2).
    pose proof (thread_ok_critical_held _ _ _ _ (Hall _ _ H1) C1).
    pose proof (thread_ok_critical_held _ _ _ _ (Hall _ _ H2) C2). congruence.
  - intros o i Ho. apply (Hall _ _ Ho).
  - intros o p Ho Hf. pose proof (Hall _ _ Ho) as Hok. destruct p; try done; apply Hok.
Qed.

(** C12. When [interface_lock] exists before the instances start, no
    interleaving deadlocks: a state from which no thread can move has
    every instance finished (its start failed, or it was stopped). *)
Theorem locked_start_completes l os s :
  rtc cstep (cinit os (Some l)) s -> (forall s', ~ cstep s s') ->
  map_Forall (fun _ p => finished p = true) (c_threads s).
Proof. apply locked_stuck_finished. Qed.

(** C38. When [interface_lock] exists before the instances start, every
    interleaving that runs to its end (no thread can move) leaves the
    statics as they were: all sixteen slots free and [interface_count]
    zero, whatever the outcomes of the ifnet calls. *)
Theorem locked_end_table_init l os s :
  rtc cstep (cinit os (Some l)) s -> (forall s', ~ cstep s s') -> c_table s = registry_init.
Proof.
  intros Hr Hstuck. destruct (locked_reachable l os s Hr) as (Hwf&_&_&_&Hall).
  pose proof (locked_stuck_finished l os s Hr Hstuck) as Hfin.
  pose proof (owners_known_reachable os (Some l) s Hr) as Hk.
  apply registry_wf_unused_init; [done|]. intros i o Hi.
  destruct (Hk i o Hi) as [p Hp]. pose proof (Hall o p Hp) as Hok.
  pose proof (Hfin o p Hp) as Hf. simpl in Hf.
  destruct p; try done; destruct Hok as [Hn _]; apply Hn; by exists i.
Qed.

(** C37. When [interface_lock] exists before the instances start, two
    instances running at the same time never have the same unit number:
    the interface names vcanN are distinct (compare [lazy_lock_race]). *)
Theorem locked_units_distinct l os s o1 o2 i :
  rtc cstep (cinit os (Some l)) s ->
  c_threads s !! o1 = Some (PcRunning i) -> c_threads s !! o2 = Some (PcRunning i) -> o1 = o2.
Proof.
  intros Hr H1 H2. destruct (locked_reachable l os s Hr) as (_&_&_&_&Hall).
  destruct (Hall _ _ H1) as [S1 _], (Hall _ _ H2) as [S2 _].
  unfold has_slot in *. congruence.
Qed.

(** A state all of whose threads have finished cannot move. *)
Lemma all_finished_stuck s s' :
  map_Forall (fun _ p => finished p = true) (c_threads s) -> ~ cstep s s'.
Proof.
  intros Hall (o&b&Hstep). unfold thread_step in Hstep. destruct (c_fault s); [done|].
  destruct (c_threads s !! o) as [p|] eqn:Ho; [|done].
  pose proof (Hall o p Ho) as Hf. by destruct p.
Qed.

End ConcLock.

(** ** Witnesses *)

(** Instances 1 and 2 with lock 0 allocated: 2 waits on the lock while 1
    starts as vcan0; 2 starts as vcan1; both are stopped. *)
Definition locked_sched : list (obj * bool) :=
  [(1, true); (2, true); (1, true); (2, true); (1, true); (1, true); (1, true); (1, true);
   (2, true); (2, true); (2, true); (2, true); (2, true)]%nat.

Definition locked_stop : list (obj * bool) :=
  [(1, true); (1, true); (1, true); (2, true); (2, true); (2, true)]%nat.

Definition locked_run : Conc.cstate := Conc.run (Conc.cinit [1; 2]%nat (Some 0%nat)) locked_sched.

Definition locked_end : Conc.cstate :=
  Conc.run (Conc.cinit [1; 2]%nat (Some 0%nat)) (locked_sched ++ locked_stop).

Lemma locked_start_safe_witness :
  registry_wf (Conc.c_table locked_run) /\
  (forall o1 o2, Conc.in_critical locked_run o1 -> Conc.in_critical locked_run o2 -> o1 = o2) /\
  (forall o i, Conc.c_threads locked_run !! o = Some (Conc.PcRunning i) ->
               interfaces (Conc.c_table locked_run) !! i = Some (Some o)) /\
  (forall o p, Conc.c_threads locked_run !! o = Some p -> Conc.finished p = true ->
               ~ owns (Conc.c_table locked_run) o) /\
  Conc.c_fault locked_run = false.
Proof. apply (ConcLock.locked_start_safe 0 [1; 2]%nat), Conc.run_rtc. Defined.

(** Both instances have been stopped: no thread can move. *)
Lemma locked_end_finished :
  map_Forall (fun _ p => Conc.finished p = true) (Conc.c_threads locked_end).
Proof.
  assert (E : Conc.c_threads locked_end =
              <[1%nat:=Conc.PcStopped]> (<[2%nat:=Conc.PcStopped]> ∅)) by (vm_compute; reflexivity).
  rewrite E. repeat apply map_Forall_insert_2; [done|done|apply map_Forall_empty].
Qed.

Lemma locked_start_completes_witness :
  map_Forall (fun _ p => Conc.finished p = true) (Conc.c_threads locked_end).
Proof.
  apply (ConcLock.locked_start_completes 0 [1; 2]%nat); [apply Conc.run_rtc|].
  intros s'. apply ConcLock.all_finished_stuck, locked_end_finished.
Defined.

Lemma locked_end_table_init_witness : Conc.c_table locked_end = registry_init.
Proof.
  apply (ConcLock.locked_end_table_init 0 [1; 2]%nat); [apply Conc.run_rtc|].
  intros s'. apply ConcLock.all_finished_stuck, locked_end_finished.
Defined.

Lemma locked_units_distinct_witness : 1%nat = 1%nat.
Proof.
  apply (ConcLock.locked_units_distinct 0 [1; 2]%nat locked_run 1 1 0); [apply Conc.run_rtc|..];
    vm_compute; reflexivity.
Defined.

