(* ===== verification/ConcSeq.v ===== *)
(** * The concurrent model against the sequential one

    [Conc] splits [create_interface] and [destroy_interface] into steps at
    their lock operations; [Instance] runs each as one function.  This
    file shows the two agree when one instance runs alone: started at its
    [IOLockLock] with the lock free, the thread of [Conc], given the same
    outcomes of [ifnet_allocate] and [ifnet_attach], leaves the table
    [Instance.create_interface] leaves, ends running with the slot
    [create_interface] records in [interface_index] exactly when
    [create_interface] returns true, and releases the lock
    ([solo_create_equiv]); the same for [stop] and [destroy_interface]
    ([solo_destroy_equiv]).  The schedules are the steps the thread takes
    on each path ([solo_sched]); the proofs run them symbolically, step by
    step ([solo_step]). *)

From S2P Require Import Prelude Registry Ifnet Instance Conc ConcLock.

Import Registry Conc ConcLock.
Open Scope Z_scope.
Open Scope vcan_scope.

Module ConcSeq.

(** Instance [o] alone, at the [IOLockLock] of [create_interface]
    (line 119), the lock object [l] allocated and free. *)
Definition solo_state (r : registry) (l : lock_id) (o : obj) : cstate :=
  mk_cstate r (Some l) (S l) ∅ {[o := PcLock]} false.

(** The steps of the lone thread up to the return of [start]: lock, scan,
    claim, [ifnet_allocate]; [ifnet_attach] if the allocation succeeded;
    the rollback (lock, release) unless both succeeded.  A thread whose
    claim failed has finished, and its remaining entries are skipped. *)
Definition solo_sched (o : obj) (alloc_ok attach_ok : bool) : list (obj * bool) :=
  [(o, true); (o, true); (o, true); (o, alloc_ok)] ++
  (if alloc_ok then [(o, attach_ok)] else []) ++
  (if alloc_ok && attach_ok then [] else [(o, true); (o, true)]).

(** An errno for the outcome of a call. *)
Definition errno_of (ok : bool) : Z := if ok then 0 else ENOMEM.

(** ** Running a schedule step by step *)

Lemma run_step s o b s' l : thread_step s o b = Some s' -> run s ((o, b) :: l) = run s' l.
Proof. intros H. simpl. by rewrite H. Qed.

Lemma run_stuck s o b l : thread_step s o b = None -> run s ((o, b) :: l) = run s l.
Proof. intros H. simpl. by rewrite H. Qed.

(** One step of the lone thread, computed on its symbolic state. *)
Ltac solo_lookup :=
  cbn [c_threads c_lock c_held c_table c_fault set_pc set_held set_ctable];
  rewrite ?lookup_insert_eq, ?lookup_singleton_eq, ?lookup_empty, ?lookup_delete_eq,
    ?delete_insert_eq, ?delete_empty.

Ltac solo_compute :=
  unfold thread_step, take_lock, unlock_current, fault; solo_lookup; cbn match;
  try match goal with H : claim_at _ _ _ = _ |- _ => rewrite H end;
  solo_lookup; rewrite ?decide_True by done.

Ltac solo_step :=
  first [ erewrite run_step; [|solo_compute; reflexivity]
        | rewrite run_stuck; [|solo_compute; reflexivity] ].

Ltac solo_finish :=
  rewrite ?decide_False, ?decide_True by (unfold ENOMEM; lia);
  cbn [set_pc set_held set_ctable c_table c_threads c_held interface_index set_interface
       set_interface_index];
  rewrite ?lookup_insert_eq, ?delete_insert_eq, ?delete_empty, ?insert_insert_eq;
  split_and!; done.

(** ** Theorems *)

Section Solo.
Context {I : Type} `{!IfnetKPI I}.

(** An instance running [start] alone, from its [IOLockLock] with
    the lock free, goes through the steps of the concurrent model to the
    same result as the sequential [create_interface] with the same
    outcomes of [ifnet_allocate] and [ifnet_attach]: the same slot table,
    running with the slot [create_interface] records exactly when it
    returns true (failed otherwise), and the lock released. *)
Lemma solo_create_equiv r l o (s : VirtualCANInterface I) alloc_ok attach_ok :
  let fin := run (solo_state r l o) (solo_sched o alloc_ok attach_ok) in
  let '(r', s', ok) := create_interface r o s (errno_of alloc_ok) (errno_of attach_ok) in
  c_table fin = r' /\
  c_threads fin !! o = Some (if ok then PcRunning (interface_index s') else PcFailed) /\
  c_held fin = ∅.
Proof.
  unfold create_interface. rewrite acquire_slot_claim_at.
  destruct (claim_at r o (find_slot (interfaces r))) as [r1|] eqn:Hc; simpl fmap;
    destruct alloc_ok, attach_ok; unfold solo_sched, errno_of, solo_state; cbn [app andb];
    repeat solo_step; cbn [run].
  all: solo_finish.
Qed.
(** A lone instance running with slot [i], at the start of [stop]. *)
Lemma solo_destroy_equiv r l o (s : VirtualCANInterface I) ifp :
  interface s = Some ifp ->
  let fin := run (mk_cstate r (Some l) (S l) ∅ {[o := PcRunning (interface_index s)]} false)
                 [(o, true); (o, true); (o, true)] in
  c_table fin = (destroy_interface r s).1 /\ c_threads fin !! o = Some PcStopped /\
  c_held fin = ∅.
Proof.
  intros Hifp. unfold destroy_interface. rewrite Hifp.
  repeat solo_step; cbn [run]. solo_finish.
Qed.

End Solo.

End ConcSeq.
